(** * coderfile: the schema (shared/schema) and the request handlers
      (server/routes.ts) over an explicit relational store.

    The store is the only shared mutable resource of the program, so every
    handler is a function from the store, the request and the values the
    request draws from its environment (clocks, random identifiers) to a
    response and the next store.  Rows are records, tables are lists of rows
    in storage order, request bodies are JSON values whose objects are finite
    maps from keys to values. *)

From stdpp Require Import gmap strings list sorting pretty.
From Stdlib Require Import ZArith.

#[local] Set Warnings "-register-all,-clear-no-such-hyp".
#[local] Open Scope string_scope.
#[local] Open Scope Z_scope.

(** ** JSON values (request bodies, jsonb columns)

    A number is taken as an integer: the numbers the handlers read from a
    body are bound to integer columns, and a text column receives a number
    only through the driver's text form. *)

Inductive json :=
| JNull
| JBool (b : bool)
| JNum (n : Z)
| JStr (s : string)
| JArr (l : list json)
| JObj (o : gmap string json).

(** A property read [v.k] / a destructuring [const { k } = v]: [None] is
    [undefined].  Reading a property of [null] throws a TypeError, which
    [destructure] reports as [None]; strings, numbers, booleans and arrays
    have none of the keys the handlers read. *)
Definition destructure (v : json) : option (gmap string json) :=
  match v with
  | JNull => None
  | JObj o => Some o
  | _ => Some ∅
  end.

(** JavaScript truthiness of a string. *)
Definition truthy (s : string) : bool :=
  match s with
  | EmptyString => false
  | String _ _ => true
  end.

(** [s.charAt(0)] and [s.slice(1)] on a string taken as its sequence of
    code units. *)
Definition charAt0 (s : string) : string := String.substring 0 1 s.
Definition slice1 (s : string) : string :=
  String.substring 1 (String.length s - 1) s.

(** ** What the platform supplies

    Functions of the JavaScript engine, of the validation library and of the
    database driver that the handlers call and that are not part of the
    repository. *)
Class Runtime := {
  (** [String.prototype.toUpperCase] *)
  toUpperCase : string → string;
  (** string conversion inside a template literal, for values that are
      neither strings, booleans nor null *)
  ToString : json → string;
  (** the driver's text form of a non-string parameter bound to a text
      column *)
  prepareValue : json → string;
  (** the validator's uuid check on a string *)
  zod_uuid : string → bool;
  (** the store's reading of a text as a value of type uuid: [None] is the
      store's "invalid input syntax" error, [Some u] the stored form *)
  uuid_in : string → option string;
}.

(** What one request draws from its environment. *)
Record Env := {
  nanoid : nat → string;   (* nanoid(n) *)
  now : Z;                 (* new Date() *)
  db_now : Z;              (* the store's now(), for defaultNow() *)
  db_uuid : string;        (* the store's random uuid, for defaultRandom() *)
}.

(** ** The store's 32-bit integer type *)

Definition int4_ok (z : Z) : bool := (-2147483648 <=? z) && (z <=? 2147483647).

(** [a + b] on an integer column: out of range is an error of the store. *)
Definition int4_add (a b : Z) : option Z :=
  if int4_ok (a + b) then Some (a + b) else None.

(** ** Tables (shared/schema) *)

Module CodeSnippet.
Record t := {
  id : string;
  title : string;
  description : option string;
  content : option string;
  language : option string;
  ownerId : option string;
  isProtected : option bool;
  isPublic : option bool;
  isFeatured : option bool;
  isTemporary : option bool;
  expiresAt : option Z;
  shareToken : string;
  createdAt : Z;
  updatedAt : Z;
}.
End CodeSnippet.

Module SnippetMessage.
Record t := {
  id : string;
  snippetId : string;
  userId : option string;
  username : string;
  messageType : string;
  content : option string;
  fileUrl : option string;
  fileName : option string;
  fileSize : option Z;
  fileType : option string;
  createdAt : option Z;
  updatedAt : option Z;
}.
End SnippetMessage.

Module CodingChallenge.
Record t := {
  id : string;
  title : string;
  description : string;
  difficulty : string;
  language : string;
  testCases : json;
  hints : json;
  constraints : option string;
  createdAt : Z;
  createdBy : option string;
}.
End CodingChallenge.

Module ChallengeSubmission.
Record t := {
  id : string;
  challengeId : string;
  userId : option string;
  sessionId : option string;
  code : string;
  language : string;
  score : Z;
  rank : option string;
  testResults : option json;
  feedback : option string;
  strengths : option json;
  improvements : option json;
  executionTimeMs : option Z;
  hintsUsed : option Z;
  submittedAt : Z;
}.
End ChallengeSubmission.

Module UserPracticeStats.
Record t := {
  userId : string;
  totalChallenges : option Z;
  totalSubmissions : option Z;
  averageScore : option string;
  bestRank : option string;
  languagesPracticed : option json;
  difficultyBreakdown : option json;
  rankDistribution : option json;
  totalPoints : Z;
  currentStreak : Z;
  longestStreak : Z;
  lastSubmissionDate : option Z;
  updatedAt : Z;
}.

(** The keys of the table declaration, in its order. *)
Definition columns : list string :=
  [ "userId"; "totalChallenges"; "totalSubmissions"; "averageScore";
    "bestRank"; "languagesPracticed"; "difficultyBreakdown";
    "rankDistribution"; "totalPoints"; "currentStreak"; "longestStreak";
    "lastSubmissionDate"; "updatedAt" ].
End UserPracticeStats.

Record Store := {
  codeSnippets : list CodeSnippet.t;
  snippetMessages : list SnippetMessage.t;
  codingChallenges : list CodingChallenge.t;
  challengeSubmissions : list ChallengeSubmission.t;
  userPracticeStats : list UserPracticeStats.t;
}.

(** ** Responses *)

(** What a handler throws and its [catch] reports. *)
Inductive Exn :=
| ZodError      (* the payload failed schema validation *)
| TypeError     (* a property of null or undefined was read or called *)
| QueryError.   (* the store refused the statement *)

Inductive Body :=
| BError (msg : string)                        (* { error: "..." } *)
| BThrown (e : Exn)                            (* { error: error.message } *)
| BSnippet (r : CodeSnippet.t)
| BMessages (l : list SnippetMessage.t)
| BChallenge (r : CodingChallenge.t)
| BChallenges (l : list CodingChallenge.t)
| BSubmission (r : ChallengeSubmission.t)
| BStats (r : UserPracticeStats.t)
| BObject (o : gmap string json).              (* an object literal *)

Record Response := { status : nat; body : Body }.

Definition json_ (b : Body) : Response := {| status := 200; body := b |}.
Definition status_json (code : nat) (b : Body) : Response :=
  {| status := code; body := b |}.

(** ** The body of a handler's [try]

    A computation over the store that may throw.  A statement that the store
    refuses leaves the store as it was; what earlier statements of the same
    handler wrote stays written (the handlers open no transaction). *)

Definition Handler (A : Type) : Type := Store → (Exn + A) * Store.

#[export] Instance Handler_ret : MRet Handler := λ A x st, (inr x, st).
#[export] Instance Handler_bind : MBind Handler := λ A B f m st,
  match m st with
  | (inr x, st') => f x st'
  | (inl e, st') => (inl e, st')
  end.

Definition throw {A} (e : Exn) : Handler A := λ st, (inl e, st).

Definition orThrow {A} (e : Exn) (o : option A) : Handler A :=
  match o with
  | Some x => mret x
  | None => throw e
  end.

(** One statement sent to the store. *)
Definition statement {A} (q : Store → option (A * Store)) : Handler A := λ st,
  match q st with
  | Some (x, st') => (inr x, st')
  | None => (inl QueryError, st)
  end.

(** [try { ... } catch (error) { ... }] *)
Definition try_catch (m : Handler Response) (handler : Exn → Response)
    (st : Store) : Response * Store :=
  match m st with
  | (inr res, st') => (res, st')
  | (inl error, st') => (handler error, st')
  end.

(** ** Validators derived from the tables

    The insert schema of a table reads each column's key from the payload
    and drops every other key.  A column that is not null and has no default
    is required; one that is not null and has a default is optional; a
    nullable column is optional and accepts null. *)

Inductive nullish (A : Type) :=
| Undefined
| Null
| Value (a : A).
Arguments Undefined {A}.
Arguments Null {A}.
Arguments Value {A} a.

Definition z_string (v : json) : option string :=
  match v with JStr s => Some s | _ => None end.

Definition z_uuid `{Runtime} (v : json) : option string :=
  match v with
  | JStr s => if zod_uuid s then Some s else None
  | _ => None
  end.

Definition z_boolean (v : json) : option bool :=
  match v with JBool b => Some b | _ => None end.

Definition z_number (v : json) : option Z :=
  match v with JNum n => Some n | _ => None end.

(** A timestamp column asks for a Date object, which no JSON value is. *)
Definition z_date (v : json) : option Z := None.

Definition z_json (v : json) : option json := Some v.

Definition required {A} (p : json → option A) (v : option json) : option A :=
  v ≫= p.

Definition optional {A} (p : json → option A) (v : option json)
    : option (option A) :=
  match v with
  | None => Some None
  | Some x => Some <$> p x
  end.

Definition nullable_optional {A} (p : json → option A) (v : option json)
    : option (nullish A) :=
  match v with
  | None => Some Undefined
  | Some JNull => Some Null
  | Some x => Value <$> p x
  end.

(** The value the store writes for a nullable column: the column default
    when the key is absent, NULL for null. *)
Definition or_default {A} (d : option A) (x : nullish A) : option A :=
  match x with
  | Undefined => d
  | Null => None
  | Value a => Some a
  end.

(** A nullable uuid column: the store reads the text as a uuid. *)
Definition uuid_column `{Runtime} (x : option string) : option (option string) :=
  match x with
  | None => Some None
  | Some s => Some <$> uuid_in s
  end.

(** A nullable integer column. *)
Definition int4_column (x : option Z) : option (option Z) :=
  match x with
  | None => Some None
  | Some n => if int4_ok n then Some (Some n) else None
  end.

(** [createInsertSchema(codeSnippets).omit({ id, createdAt, updatedAt,
    shareToken })] *)
Record InsertCodeSnippet := {
  ics_title : option string;
  ics_description : nullish string;
  ics_content : nullish string;
  ics_language : nullish string;
  ics_ownerId : nullish string;
  ics_isProtected : nullish bool;
  ics_isPublic : nullish bool;
  ics_isFeatured : nullish bool;
  ics_isTemporary : nullish bool;
  ics_expiresAt : nullish Z;
}.

Definition insertCodeSnippetSchema `{Runtime} (payload : json)
    : option InsertCodeSnippet :=
  match payload with
  | JObj o =>
      title ← optional z_string (o !! "title");
      description ← nullable_optional z_string (o !! "description");
      content ← nullable_optional z_string (o !! "content");
      language ← nullable_optional z_string (o !! "language");
      ownerId ← nullable_optional z_uuid (o !! "ownerId");
      isProtected ← nullable_optional z_boolean (o !! "isProtected");
      isPublic ← nullable_optional z_boolean (o !! "isPublic");
      isFeatured ← nullable_optional z_boolean (o !! "isFeatured");
      isTemporary ← nullable_optional z_boolean (o !! "isTemporary");
      expiresAt ← nullable_optional z_date (o !! "expiresAt");
      Some {| ics_title := title; ics_description := description;
              ics_content := content; ics_language := language;
              ics_ownerId := ownerId; ics_isProtected := isProtected;
              ics_isPublic := isPublic; ics_isFeatured := isFeatured;
              ics_isTemporary := isTemporary; ics_expiresAt := expiresAt |}
  | _ => None
  end.

(** ** Statements on [codeSnippets] *)

(** [db.insert(codeSnippets).values({ ...data, shareToken }).returning()]:
    absent keys take the column defaults; the primary key and the unique
    share token are checked by the store. *)
Definition insert_codeSnippet `{Runtime} (env : Env) (data : InsertCodeSnippet)
    (shareToken : string) (st : Store) : option (CodeSnippet.t * Store) :=
  ownerId ← uuid_column (or_default None (ics_ownerId data));
  let row := {|
    CodeSnippet.id := db_uuid env;
    CodeSnippet.title := default "Untitled" (ics_title data);
    CodeSnippet.description := or_default None (ics_description data);
    CodeSnippet.content := or_default (Some "") (ics_content data);
    CodeSnippet.language := or_default (Some "javascript") (ics_language data);
    CodeSnippet.ownerId := ownerId;
    CodeSnippet.isProtected := or_default (Some false) (ics_isProtected data);
    CodeSnippet.isPublic := or_default (Some false) (ics_isPublic data);
    CodeSnippet.isFeatured := or_default (Some false) (ics_isFeatured data);
    CodeSnippet.isTemporary := or_default (Some false) (ics_isTemporary data);
    CodeSnippet.expiresAt := or_default None (ics_expiresAt data);
    CodeSnippet.shareToken := shareToken;
    CodeSnippet.createdAt := db_now env;
    CodeSnippet.updatedAt := db_now env |} in
  if bool_decide (db_uuid env ∈ CodeSnippet.id <$> codeSnippets st) then None
  else if bool_decide (shareToken ∈ CodeSnippet.shareToken <$> codeSnippets st)
  then None
  else Some (row, {| codeSnippets := codeSnippets st ++ [row];
                     snippetMessages := snippetMessages st;
                     codingChallenges := codingChallenges st;
                     challengeSubmissions := challengeSubmissions st;
                     userPracticeStats := userPracticeStats st |}).

(** [UPDATE ... SET ... WHERE p RETURNING *]: the new table and the updated
    rows.  [f] fails on a row when the new row violates a constraint, and
    then the whole statement fails. *)
Fixpoint update_rows {A} (p : A → bool) (f : A → option A) (rows : list A)
    : option (list A * list A) :=
  match rows with
  | [] => Some ([], [])
  | r :: rest =>
      '(rest', returning) ← update_rows p f rest;
      if p r then r' ← f r; Some (r' :: rest', r' :: returning)
      else Some (r :: rest', returning)
  end.

(** The [set] clause of the PATCH handler: a key whose value is undefined is
    left out of the statement; [Some None] writes NULL. *)
Record SnippetSet := {
  set_content : option (option string);
  set_title : option (option string);
  set_description : option (option string);
  set_language : option (option string);
  set_updatedAt : Z;
}.

(** A JavaScript value bound to a text column. *)
Definition text_param `{Runtime} (v : json) : option string :=
  match v with
  | JNull => None
  | JStr s => Some s
  | _ => Some (prepareValue v)
  end.

(** The updated row; [title] is declared not null. *)
Definition apply_set (s : SnippetSet) (r : CodeSnippet.t) : option CodeSnippet.t :=
  title ← default (Some (CodeSnippet.title r)) (set_title s);
  Some {|
    CodeSnippet.id := CodeSnippet.id r;
    CodeSnippet.title := title;
    CodeSnippet.description :=
      default (CodeSnippet.description r) (set_description s);
    CodeSnippet.content := default (CodeSnippet.content r) (set_content s);
    CodeSnippet.language := default (CodeSnippet.language r) (set_language s);
    CodeSnippet.ownerId := CodeSnippet.ownerId r;
    CodeSnippet.isProtected := CodeSnippet.isProtected r;
    CodeSnippet.isPublic := CodeSnippet.isPublic r;
    CodeSnippet.isFeatured := CodeSnippet.isFeatured r;
    CodeSnippet.isTemporary := CodeSnippet.isTemporary r;
    CodeSnippet.expiresAt := CodeSnippet.expiresAt r;
    CodeSnippet.shareToken := CodeSnippet.shareToken r;
    CodeSnippet.createdAt := CodeSnippet.createdAt r;
    CodeSnippet.updatedAt := set_updatedAt s |}.

Definition update_codeSnippets (s : SnippetSet) (where_ : CodeSnippet.t → bool)
    (st : Store) : option (list CodeSnippet.t * Store) :=
  '(rows, returning) ← update_rows where_ (apply_set s) (codeSnippets st);
  Some (returning, {| codeSnippets := rows;
                      snippetMessages := snippetMessages st;
                      codingChallenges := codingChallenges st;
                      challengeSubmissions := challengeSubmissions st;
                      userPracticeStats := userPracticeStats st |}).

(** [eq(column, value)] on a text column. *)
Definition eq_text (x y : string) : bool := bool_decide (x = y).

(** ** Snippet handlers *)

(** POST /api/snippets *)
Definition post_snippets `{Runtime} (env : Env) (body : json)
    : Store → Response * Store :=
  try_catch
    (data ← orThrow ZodError (insertCodeSnippetSchema body);
     let shareToken := nanoid env 12 in
     snippet ← statement (insert_codeSnippet env data shareToken);
     mret (json_ (BSnippet snippet)))
    (λ error, status_json 400 (BThrown error)).

(** GET /api/snippets/:shareToken *)
Definition get_snippet (shareToken : string) : Store → Response * Store :=
  try_catch
    (rows ← statement (λ st,
       Some (take 1 (filter (λ r, eq_text (CodeSnippet.shareToken r) shareToken = true)
                            (codeSnippets st)), st));
     match rows with
     | [] => mret (status_json 404 (BError "Snippet not found"))
     | snippet :: _ => mret (json_ (BSnippet snippet))
     end)
    (λ error, status_json 500 (BError "Internal server error")).

(** PATCH /api/snippets/:shareToken *)
Definition patch_snippet `{Runtime} (env : Env) (shareToken : string)
    (body : json) : Store → Response * Store :=
  try_catch
    (o ← orThrow TypeError (destructure body);
     let content := o !! "content" in
     let title := o !! "title" in
     let description := o !! "description" in
     let language := o !! "language" in
     rows ← statement (update_codeSnippets
       {| set_content := text_param <$> content;
          set_title := text_param <$> title;
          set_description := text_param <$> description;
          set_language := text_param <$> language;
          set_updatedAt := now env |}
       (λ r, eq_text (CodeSnippet.shareToken r) shareToken));
     match rows with
     | [] => mret (status_json 404 (BError "Snippet not found"))
     | snippet :: _ => mret (json_ (BSnippet snippet))
     end)
    (λ error, status_json 500 (BError "Internal server error")).

(** ** Ordered, limited queries *)

(** [where(c)]: [undefined] applies no condition. *)
Definition where_ {A} (c : option (A → bool)) (rows : list A) : list A :=
  match c with
  | Some p => filter (λ r, p r = true) rows
  | None => rows
  end.

(** [and(...conditions)] *)
Definition and_ {A} (conditions : list (A → bool)) (r : A) : bool :=
  forallb (λ c, c r) conditions.

(** [ORDER BY k DESC] on a column that is not null: the row with the larger
    key first.  Rows with equal keys come in an order the store chooses;
    the merge sort fixes one such order. *)
Definition desc (x y : Z) : Prop := y ≤ x.

(** [ORDER BY k DESC] on a nullable column: NULL sorts before every value. *)
Definition desc_nulls_first (x y : option Z) : Prop :=
  match x, y with
  | None, _ => True
  | Some _, None => False
  | Some a, Some b => b ≤ a
  end.

#[export] Instance desc_dec x y : Decision (desc x y) := Z_le_dec y x.

#[export] Instance desc_nulls_first_dec x y : Decision (desc_nulls_first x y) :=
  match x, y with
  | None, _ => left I
  | Some _, None => right (λ contra, contra)
  | Some a, Some b => Z_le_dec b a
  end.

Definition orderBy {A} (R : relation A) `{∀ x y, Decision (R x y)}
    (rows : list A) : list A := merge_sort R rows.

Definition messages_desc_createdAt : relation SnippetMessage.t :=
  λ r1 r2, desc_nulls_first (SnippetMessage.createdAt r1) (SnippetMessage.createdAt r2).

Definition challenges_desc_createdAt : relation CodingChallenge.t :=
  λ r1 r2, desc (CodingChallenge.createdAt r1) (CodingChallenge.createdAt r2).

#[export] Instance messages_desc_createdAt_dec r1 r2 :
  Decision (messages_desc_createdAt r1 r2) :=
  desc_nulls_first_dec (SnippetMessage.createdAt r1) (SnippetMessage.createdAt r2).

#[export] Instance challenges_desc_createdAt_dec r1 r2 :
  Decision (challenges_desc_createdAt r1 r2) :=
  desc_dec (CodingChallenge.createdAt r1) (CodingChallenge.createdAt r2).

(** ** Message handlers *)

(** GET /api/snippets/:snippetId/messages *)
Definition get_messages `{Runtime} (snippetId : string)
    : Store → Response * Store :=
  try_catch
    (messages ← statement (λ st,
       sid ← uuid_in snippetId;
       Some (take 100
               (orderBy messages_desc_createdAt
                  (where_ (Some (λ r, eq_text (SnippetMessage.snippetId r) sid))
                          (snippetMessages st))), st));
     mret (json_ (BMessages messages)))
    (λ error, status_json 500 (BError "Internal server error")).

(** ** Challenge handlers *)

(** [`${v}`]: the string a template literal writes for a value. *)
Definition template `{Runtime} (v : option json) : string :=
  match v with
  | None => "undefined"
  | Some (JStr s) => s
  | Some JNull => "null"
  | Some (JBool true) => "true"
  | Some (JBool false) => "false"
  | Some x => ToString x
  end.

(** The receiver of [.charAt] and [.slice]: only a string has these methods;
    on undefined, null and every other JSON value the call throws. *)
Definition string_methods (v : option json) : option string :=
  match v with
  | Some (JStr s) => Some s
  | _ => None
  end.

(** [db.insert(codingChallenges).values(challenge).returning()]; [language]
    is declared not null and has no default. *)
Definition insert_codingChallenge `{Runtime} (env : Env) (title description : string)
    (difficulty : string) (language : option json) (testCases hints : json)
    (constraints : string) (st : Store) : option (CodingChallenge.t * Store) :=
  language ← language ≫= text_param;
  let row := {|
    CodingChallenge.id := db_uuid env;
    CodingChallenge.title := title;
    CodingChallenge.description := description;
    CodingChallenge.difficulty := difficulty;
    CodingChallenge.language := language;
    CodingChallenge.testCases := testCases;
    CodingChallenge.hints := hints;
    CodingChallenge.constraints := Some constraints;
    CodingChallenge.createdAt := db_now env;
    CodingChallenge.createdBy := None |} in
  if bool_decide (db_uuid env ∈ CodingChallenge.id <$> codingChallenges st)
  then None
  else Some (row, {| codeSnippets := codeSnippets st;
                     snippetMessages := snippetMessages st;
                     codingChallenges := codingChallenges st ++ [row];
                     challengeSubmissions := challengeSubmissions st;
                     userPracticeStats := userPracticeStats st |}).

(** POST /api/coding-challenges/generate *)
Definition post_generate `{Runtime} (env : Env) (body : json)
    : Store → Response * Store :=
  try_catch
    (o ← orThrow TypeError (destructure body);
     let difficulty := o !! "difficulty" in
     let language := o !! "language" in
     d ← orThrow TypeError (string_methods difficulty);
     let title :=
       (toUpperCase (charAt0 d) +:+ slice1 d) +:+ " " +:+ template language
         +:+ " Challenge" in
     let description :=
       "Practice your " +:+ template language +:+ " skills with this "
         +:+ template difficulty +:+ " level challenge." in
     let testCases :=
       JArr [ JObj (list_to_map
                [ ("input", JStr "test"); ("expected", JStr "test");
                  ("description", JStr "Basic test case") ]) ] in
     let hints :=
       JArr [ JStr ("Think about how to solve this step by step in "
                      +:+ template language) ] in
     created ← statement (insert_codingChallenge env title description d
                            language testCases hints
                            "Standard constraints apply");
     mret (json_ (BChallenge created)))
    (λ error, status_json 500 (BError "Internal server error")).

(** [req.query] of the challenge list. *)
Record ChallengeQuery := {
  q_difficulty : option string;
  q_language : option string;
}.

(** [if (v) conditions.push(c)] *)
Definition push_if {A} (v : option string) (c : string → A) (conditions : list A)
    : list A :=
  match v with
  | Some s => if truthy s then conditions ++ [c s] else conditions
  | None => conditions
  end.

(** GET /api/coding-challenges *)
Definition get_challenges (query : ChallengeQuery) : Store → Response * Store :=
  try_catch
    (let difficulty := q_difficulty query in
     let language := q_language query in
     let conditions := [] in
     let conditions :=
       push_if difficulty
         (λ d r, eq_text (CodingChallenge.difficulty r) d) conditions in
     let conditions :=
       push_if language
         (λ l r, eq_text (CodingChallenge.language r) l) conditions in
     challenges ← statement (λ st,
       Some (take 50
               (orderBy challenges_desc_createdAt
                  (where_ (if bool_decide (0 < length conditions)%nat
                           then Some (and_ conditions) else None)
                          (codingChallenges st))), st));
     mret (json_ (BChallenges challenges)))
    (λ error, status_json 500 (BError "Internal server error")).

(** ** Submissions and practice statistics *)

(** [{ ...v }]: the own enumerable properties of a value.  Spreading null,
    a number or a boolean gives no property; an array or a string gives its
    index keys. *)
Definition spread (v : json) : gmap string json :=
  match v with
  | JObj o => o
  | JArr l => list_to_map (imap (λ i x, (pretty i, x)) l)
  | JStr s =>
      list_to_map (imap (λ i c, (pretty i, JStr (String c EmptyString)))
                        (String.list_ascii_of_string s))
  | _ => ∅
  end.

(** [createInsertSchema(challengeSubmissions).omit({ id, submittedAt })] *)
Record InsertChallengeSubmission := {
  sub_challengeId : string;
  sub_userId : nullish string;
  sub_sessionId : nullish string;
  sub_code : string;
  sub_language : string;
  sub_score : option Z;
  sub_rank : nullish string;
  sub_testResults : nullish json;
  sub_feedback : nullish string;
  sub_strengths : nullish json;
  sub_improvements : nullish json;
  sub_executionTimeMs : nullish Z;
  sub_hintsUsed : nullish Z;
}.

Definition insertChallengeSubmissionSchema `{Runtime} (payload : json)
    : option InsertChallengeSubmission :=
  match payload with
  | JObj o =>
      challengeId ← required z_uuid (o !! "challengeId");
      userId ← nullable_optional z_uuid (o !! "userId");
      sessionId ← nullable_optional z_string (o !! "sessionId");
      code ← required z_string (o !! "code");
      language ← required z_string (o !! "language");
      score ← optional z_number (o !! "score");
      rank ← nullable_optional z_string (o !! "rank");
      testResults ← nullable_optional z_json (o !! "testResults");
      feedback ← nullable_optional z_string (o !! "feedback");
      strengths ← nullable_optional z_json (o !! "strengths");
      improvements ← nullable_optional z_json (o !! "improvements");
      executionTimeMs ← nullable_optional z_number (o !! "executionTimeMs");
      hintsUsed ← nullable_optional z_number (o !! "hintsUsed");
      Some {| sub_challengeId := challengeId; sub_userId := userId;
              sub_sessionId := sessionId; sub_code := code;
              sub_language := language; sub_score := score;
              sub_rank := rank; sub_testResults := testResults;
              sub_feedback := feedback; sub_strengths := strengths;
              sub_improvements := improvements;
              sub_executionTimeMs := executionTimeMs;
              sub_hintsUsed := hintsUsed |}
  | _ => None
  end.

(** [db.insert(challengeSubmissions).values({ ...data, score, rank,
    testResults, feedback, strengths, improvements }).returning()]: the keys
    written after the spread replace those of [data]; [challengeId]
    references [codingChallenges.id]. *)
Definition insert_challengeSubmission `{Runtime} (env : Env)
    (data : InsertChallengeSubmission) (score : Z) (rank : string)
    (testResults : json) (feedback : string) (strengths improvements : json)
    (st : Store) : option (ChallengeSubmission.t * Store) :=
  challengeId ← uuid_in (sub_challengeId data);
  userId ← uuid_column (or_default None (sub_userId data));
  executionTimeMs ← int4_column (or_default None (sub_executionTimeMs data));
  hintsUsed ← int4_column (or_default (Some 0) (sub_hintsUsed data));
  let row := {|
    ChallengeSubmission.id := db_uuid env;
    ChallengeSubmission.challengeId := challengeId;
    ChallengeSubmission.userId := userId;
    ChallengeSubmission.sessionId := or_default None (sub_sessionId data);
    ChallengeSubmission.code := sub_code data;
    ChallengeSubmission.language := sub_language data;
    ChallengeSubmission.score := score;
    ChallengeSubmission.rank := Some rank;
    ChallengeSubmission.testResults := Some testResults;
    ChallengeSubmission.feedback := Some feedback;
    ChallengeSubmission.strengths := Some strengths;
    ChallengeSubmission.improvements := Some improvements;
    ChallengeSubmission.executionTimeMs := executionTimeMs;
    ChallengeSubmission.hintsUsed := hintsUsed;
    ChallengeSubmission.submittedAt := db_now env |} in
  if negb (int4_ok score) then None
  else if bool_decide (db_uuid env ∈ ChallengeSubmission.id <$> challengeSubmissions st)
  then None
  else if bool_decide (challengeId ∈ CodingChallenge.id <$> codingChallenges st)
  then Some (row, {| codeSnippets := codeSnippets st;
                     snippetMessages := snippetMessages st;
                     codingChallenges := codingChallenges st;
                     challengeSubmissions := challengeSubmissions st ++ [row];
                     userPracticeStats := userPracticeStats st |})
  else None.

(** The row the upsert proposes: the values of the handler and the column
    defaults for the keys it does not give. *)
Definition stats_values (env : Env) (userId : string) (score : Z)
    : UserPracticeStats.t := {|
  UserPracticeStats.userId := userId;
  UserPracticeStats.totalChallenges := Some 1;
  UserPracticeStats.totalSubmissions := Some 1;
  UserPracticeStats.averageScore := Some "100.00";
  UserPracticeStats.bestRank := None;
  UserPracticeStats.languagesPracticed := Some (JObj ∅);
  UserPracticeStats.difficultyBreakdown := Some (JObj ∅);
  UserPracticeStats.rankDistribution := Some (JObj ∅);
  UserPracticeStats.totalPoints := score;
  UserPracticeStats.currentStreak := 0;
  UserPracticeStats.longestStreak := 0;
  UserPracticeStats.lastSubmissionDate := None;
  UserPracticeStats.updatedAt := db_now env |}.

(** [column + n] on a nullable integer column: NULL stays NULL. *)
Definition nullable_add (x : option Z) (n : Z) : option (option Z) :=
  match x with
  | None => Some None
  | Some a => Some <$> int4_add a n
  end.

(** The [set] of [onConflictDoUpdate], on the existing row. *)
Definition stats_conflict_set (env : Env) (score : Z) (r : UserPracticeStats.t)
    : option UserPracticeStats.t :=
  totalSubmissions ← nullable_add (UserPracticeStats.totalSubmissions r) 1;
  totalPoints ← int4_add (UserPracticeStats.totalPoints r) score;
  Some {|
    UserPracticeStats.userId := UserPracticeStats.userId r;
    UserPracticeStats.totalChallenges := UserPracticeStats.totalChallenges r;
    UserPracticeStats.totalSubmissions := totalSubmissions;
    UserPracticeStats.averageScore := UserPracticeStats.averageScore r;
    UserPracticeStats.bestRank := UserPracticeStats.bestRank r;
    UserPracticeStats.languagesPracticed := UserPracticeStats.languagesPracticed r;
    UserPracticeStats.difficultyBreakdown := UserPracticeStats.difficultyBreakdown r;
    UserPracticeStats.rankDistribution := UserPracticeStats.rankDistribution r;
    UserPracticeStats.totalPoints := totalPoints;
    UserPracticeStats.currentStreak := UserPracticeStats.currentStreak r;
    UserPracticeStats.longestStreak := UserPracticeStats.longestStreak r;
    UserPracticeStats.lastSubmissionDate := UserPracticeStats.lastSubmissionDate r;
    UserPracticeStats.updatedAt := now env |}.

Definition with_userPracticeStats (st : Store) (rows : list UserPracticeStats.t)
    : Store :=
  {| codeSnippets := codeSnippets st;
     snippetMessages := snippetMessages st;
     codingChallenges := codingChallenges st;
     challengeSubmissions := challengeSubmissions st;
     userPracticeStats := rows |}.

(** [db.insert(userPracticeStats).values(...).onConflictDoUpdate({ target:
    userPracticeStats.userId, set: ... })] *)
Definition upsert_userPracticeStats `{Runtime} (env : Env) (userId : string)
    (score : Z) (st : Store) : option (unit * Store) :=
  u ← uuid_in userId;
  if negb (int4_ok score) then None
  else if bool_decide (u ∈ UserPracticeStats.userId <$> userPracticeStats st)
  then
    '(rows, _) ← update_rows (λ r, eq_text (UserPracticeStats.userId r) u)
                             (stats_conflict_set env score)
                             (userPracticeStats st);
    Some ((), with_userPracticeStats st rows)
  else
    Some ((), with_userPracticeStats st
                (userPracticeStats st ++ [stats_values env u score])).

(** [if (data.userId)] *)
Definition known_user (data : InsertChallengeSubmission) : option string :=
  match sub_userId data with
  | Value s => if truthy s then Some s else None
  | _ => None
  end.

(** POST /api/coding-challenges/:challengeId/submit *)
Definition post_submit `{Runtime} (env : Env) (challengeId : string)
    (body : json) : Store → Response * Store :=
  try_catch
    (data ← orThrow ZodError
       (insertChallengeSubmissionSchema
          (JObj (<["challengeId" := JStr challengeId]> (spread body))));
     let testResults :=
       JArr [ JObj (list_to_map
                [ ("passed", JBool true); ("input", JStr "test");
                  ("expected", JStr "test"); ("actual", JStr "test") ]) ] in
     let score := 100 in
     let rank := "A+" in
     submission ← statement (insert_challengeSubmission env data score rank
                               testResults "Great work!"
                               (JArr [ JStr "Clean code";
                                       JStr "Efficient solution" ])
                               (JArr []));
     _ ← match known_user data with
         | Some userId => statement (upsert_userPracticeStats env userId score)
         | None => mret ()
         end;
     mret (json_ (BSubmission submission)))
    (λ error, status_json 400 (BThrown error)).

(** [JSON.stringify] of an object literal: a property whose value is
    undefined is not written. *)
Definition object (props : list (string * option json)) : gmap string json :=
  list_to_map (omap (λ '(k, v), (k,.) <$> v) props).
#[global] Arguments object : simpl never.

(** GET /api/users/:userId/stats *)
Definition get_user_stats `{Runtime} (userId : string)
    : Store → Response * Store :=
  try_catch
    (rows ← statement (λ st,
       u ← uuid_in userId;
       Some (take 1 (where_ (Some (λ r, eq_text (UserPracticeStats.userId r) u))
                            (userPracticeStats st)), st));
     match rows with
     | stats :: _ => mret (json_ (BStats stats))
     | [] =>
         mret (json_ (BObject (object
           [ ("userId", Some (JStr userId));
             ("totalChallenges", Some (JNum 0));
             ("totalSubmissions", Some (JNum 0));
             ("averageScore", Some (JStr "0.00"));
             ("totalPoints", Some (JNum 0));
             ("currentStreak", Some (JNum 0));
             ("longestStreak", Some (JNum 0)) ])))
     end)
    (λ error, status_json 500 (BError "Internal server error")).

(** ** Stub integrations *)

(** POST /api/code/format *)
Definition post_format (body : json) : Store → Response * Store :=
  try_catch
    (o ← orThrow TypeError (destructure body);
     let code := o !! "code" in
     let language := o !! "language" in
     mret (json_ (BObject (object [ ("formattedCode", code) ]))))
    (λ error, status_json 500 (BError "Internal server error")).

(** * The other routes of server/routes.ts *)

(** ** Handlers over any store, and what they send

    The handlers below answer with rows of further tables, so their response
    is typed by what [res.json] is given.  A handler body is, as before, a
    computation over a store that may throw; the store is now a parameter,
    because four tables lie outside [Store]. *)

Inductive Sent (A : Type) :=
| SJson (a : A)                (* res.json(a) *)
| SError (msg : string)        (* { error: "..." } *)
| SThrown (e : Exn).           (* { error: error.message } *)
Arguments SJson {A} a.
Arguments SError {A} msg.
Arguments SThrown {A} e.

Record Reply (A : Type) := { reply_status : nat; reply_body : Sent A }.
Arguments reply_status {A} _.
Arguments reply_body {A} _.

Definition reply_json {A} (a : A) : Reply A :=
  {| reply_status := 200; reply_body := SJson a |}.
Definition reply_error {A} (code : nat) (msg : string) : Reply A :=
  {| reply_status := code; reply_body := SError msg |}.
Definition reply_thrown {A} (code : nat) (e : Exn) : Reply A :=
  {| reply_status := code; reply_body := SThrown e |}.

Definition Tx (S A : Type) : Type := S → (Exn + A) * S.

#[export] Instance Tx_ret {S} : MRet (Tx S) := λ A x st, (inr x, st).
#[export] Instance Tx_bind {S} : MBind (Tx S) := λ A B f m st,
  match m st with
  | (inr x, st') => f x st'
  | (inl e, st') => (inl e, st')
  end.

Definition tx_orThrow {S A} (e : Exn) (o : option A) : Tx S A :=
  match o with
  | Some x => mret x
  | None => λ st, (inl e, st)
  end.

(** One statement sent to the store. *)
Definition tx_statement {S A} (q : S → option (A * S)) : Tx S A := λ st,
  match q st with
  | Some (x, st') => (inr x, st')
  | None => (inl QueryError, st)
  end.

(** [try { ... } catch (error) { ... }] with any response type. *)
Definition tx_try {S R} (m : Tx S R) (handler : Exn → R) (st : S) : R * S :=
  match m st with
  | (inr res, st') => (res, st')
  | (inl error, st') => (handler error, st')
  end.

(** ** GET /api/coding-challenges/:id *)

Definition get_challenge `{Runtime} (id : string) : Store → Response * Store :=
  try_catch
    (rows ← statement (λ st,
       u ← uuid_in id;
       Some (take 1 (where_ (Some (λ r, eq_text (CodingChallenge.id r) u))
                            (codingChallenges st)), st));
     match rows with
     | [] => mret (status_json 404 (BError "Challenge not found"))
     | challenge :: _ => mret (json_ (BChallenge challenge))
     end)
    (λ error, status_json 500 (BError "Internal server error")).

(** ** GET /api/leaderboard *)

Definition stats_desc_totalPoints : relation UserPracticeStats.t :=
  λ r1 r2, desc (UserPracticeStats.totalPoints r1) (UserPracticeStats.totalPoints r2).

#[export] Instance stats_desc_totalPoints_dec r1 r2 :
  Decision (stats_desc_totalPoints r1 r2) :=
  desc_dec (UserPracticeStats.totalPoints r1) (UserPracticeStats.totalPoints r2).

Definition get_leaderboard
    : Store → Reply (list UserPracticeStats.t) * Store :=
  tx_try
    (stats ← tx_statement (λ st,
       Some (take 100 (orderBy stats_desc_totalPoints (userPracticeStats st)),
             st));
     mret (reply_json stats))
    (λ error, reply_error 500 "Internal server error").

(** ** POST /api/snippets/:snippetId/messages *)

(** [createInsertSchema(snippetMessages).omit({ id, createdAt, updatedAt })] *)
Record InsertSnippetMessage := {
  msg_snippetId : string;
  msg_userId : nullish string;
  msg_username : string;
  msg_messageType : option string;
  msg_content : nullish string;
  msg_fileUrl : nullish string;
  msg_fileName : nullish string;
  msg_fileSize : nullish Z;
  msg_fileType : nullish string;
}.

Definition insertSnippetMessageSchema `{Runtime} (payload : json)
    : option InsertSnippetMessage :=
  match payload with
  | JObj o =>
      snippetId ← required z_uuid (o !! "snippetId");
      userId ← nullable_optional z_string (o !! "userId");
      username ← required z_string (o !! "username");
      messageType ← optional z_string (o !! "messageType");
      content ← nullable_optional z_string (o !! "content");
      fileUrl ← nullable_optional z_string (o !! "fileUrl");
      fileName ← nullable_optional z_string (o !! "fileName");
      fileSize ← nullable_optional z_number (o !! "fileSize");
      fileType ← nullable_optional z_string (o !! "fileType");
      Some {| msg_snippetId := snippetId; msg_userId := userId;
              msg_username := username; msg_messageType := messageType;
              msg_content := content; msg_fileUrl := fileUrl;
              msg_fileName := fileName; msg_fileSize := fileSize;
              msg_fileType := fileType |}
  | _ => None
  end.

(** [db.insert(snippetMessages).values(data).returning()]; [snippetId]
    references [codeSnippets.id]. *)
Definition insert_snippetMessage `{Runtime} (env : Env)
    (data : InsertSnippetMessage) (st : Store)
    : option (SnippetMessage.t * Store) :=
  snippetId ← uuid_in (msg_snippetId data);
  fileSize ← int4_column (or_default None (msg_fileSize data));
  let row := {|
    SnippetMessage.id := db_uuid env;
    SnippetMessage.snippetId := snippetId;
    SnippetMessage.userId := or_default None (msg_userId data);
    SnippetMessage.username := msg_username data;
    SnippetMessage.messageType := default "text" (msg_messageType data);
    SnippetMessage.content := or_default None (msg_content data);
    SnippetMessage.fileUrl := or_default None (msg_fileUrl data);
    SnippetMessage.fileName := or_default None (msg_fileName data);
    SnippetMessage.fileSize := fileSize;
    SnippetMessage.fileType := or_default None (msg_fileType data);
    SnippetMessage.createdAt := Some (db_now env);
    SnippetMessage.updatedAt := Some (db_now env) |} in
  if bool_decide (db_uuid env ∈ SnippetMessage.id <$> snippetMessages st)
  then None
  else if bool_decide (snippetId ∈ CodeSnippet.id <$> codeSnippets st)
  then Some (row, {| codeSnippets := codeSnippets st;
                     snippetMessages := snippetMessages st ++ [row];
                     codingChallenges := codingChallenges st;
                     challengeSubmissions := challengeSubmissions st;
                     userPracticeStats := userPracticeStats st |})
  else None.

Definition post_message `{Runtime} (env : Env) (snippetId : string)
    (body : json) : Store → Reply SnippetMessage.t * Store :=
  tx_try
    (data ← tx_orThrow ZodError
       (insertSnippetMessageSchema
          (JObj (<["snippetId" := JStr snippetId]> (spread body))));
     message ← tx_statement (insert_snippetMessage env data);
     mret (reply_json message))
    (λ error, reply_thrown 400 error).

(** ** Stub integrations *)

(** POST /api/code/execute *)
Definition post_execute `{Runtime} (body : json) : Store → Response * Store :=
  try_catch
    (o ← orThrow TypeError (destructure body);
     let code := o !! "code" in
     let language := o !! "language" in
     let result := object
       [ ("output",
          Some (JStr ("Code execution for " +:+ template language
                        +:+ " would run here. Integration with code execution service needed.")));
         ("error", Some JNull);
         ("executionTime", Some (JNum 42)) ] in
     mret (json_ (BObject result)))
    (λ error, status_json 500 (BError "Internal server error")).

(** POST /api/code/assist *)
Definition post_assist `{Runtime} (body : json) : Store → Response * Store :=
  try_catch
    (o ← orThrow TypeError (destructure body);
     let code := o !! "code" in
     let language := o !! "language" in
     let prompt := o !! "prompt" in
     let response := object
       [ ("suggestion",
          Some (JStr ("AI assistance for " +:+ template language
                        +:+ " code would be provided here. Integration with AI service needed.")));
         ("explanation",
          Some (JStr ("Analysis of the code and suggestions based on: "
                        +:+ template prompt))) ] in
     mret (json_ (BObject response)))
    (λ error, status_json 500 (BError "Internal server error")).

(** ** The tables outside [Store] *)

Module SnippetCall.
Record t := {
  id : string;
  snippetId : string;
  roomName : string;
  roomUrl : string;
  startedAt : option Z;
  endedAt : option Z;
  startedBy : option string;
  isActive : option bool;
  participantCount : option Z;
  createdAt : option Z;
  updatedAt : option Z;
}.
End SnippetCall.

Module Project.
Record t := {
  id : string;
  ownerId : string;
  name : string;
  description : option string;
  githubRepoUrl : option string;
  githubOwner : option string;
  githubRepo : option string;
  githubBranch : option string;
  createdAt : Z;
  updatedAt : Z;
}.
End Project.

Module ProjectFile.
Record t := {
  id : string;
  projectId : string;
  parentFolderId : option string;
  name : string;
  type : string;
  content : option string;
  language : option string;
  path : string;
  createdAt : Z;
  updatedAt : Z;
}.
End ProjectFile.

Module SupportTicket.
Record t := {
  id : string;
  userId : string;
  type : string;
  subject : string;
  description : string;
  status : string;
  priority : option string;
  attachments : option json;
  userEmail : string;
  username : string;
  createdAt : Z;
  updatedAt : Z;
}.
End SupportTicket.

(** The whole database: the tables of [Store] and the four others the
    routes use. *)
Record Database := {
  core : Store;
  snippetCalls : list SnippetCall.t;
  projects : list Project.t;
  projectFiles : list ProjectFile.t;
  supportTickets : list SupportTicket.t;
}.

(** ** POST /api/support-tickets *)

(** [createInsertSchema(supportTickets).omit({ id, createdAt, updatedAt })] *)
Record InsertSupportTicket := {
  tkt_userId : string;
  tkt_type : string;
  tkt_subject : string;
  tkt_description : string;
  tkt_status : option string;
  tkt_priority : nullish string;
  tkt_attachments : nullish json;
  tkt_userEmail : string;
  tkt_username : string;
}.

Definition insertSupportTicketSchema `{Runtime} (payload : json)
    : option InsertSupportTicket :=
  match payload with
  | JObj o =>
      userId ← required z_uuid (o !! "userId");
      type ← required z_string (o !! "type");
      subject ← required z_string (o !! "subject");
      description ← required z_string (o !! "description");
      status ← optional z_string (o !! "status");
      priority ← nullable_optional z_string (o !! "priority");
      attachments ← nullable_optional z_json (o !! "attachments");
      userEmail ← required z_string (o !! "userEmail");
      username ← required z_string (o !! "username");
      Some {| tkt_userId := userId; tkt_type := type; tkt_subject := subject;
              tkt_description := description; tkt_status := status;
              tkt_priority := priority; tkt_attachments := attachments;
              tkt_userEmail := userEmail; tkt_username := username |}
  | _ => None
  end.

(** [db.insert(supportTickets).values(data).returning()] *)
Definition insert_supportTicket `{Runtime} (env : Env)
    (data : InsertSupportTicket) (db : Database)
    : option (SupportTicket.t * Database) :=
  userId ← uuid_in (tkt_userId data);
  let row := {|
    SupportTicket.id := db_uuid env;
    SupportTicket.userId := userId;
    SupportTicket.type := tkt_type data;
    SupportTicket.subject := tkt_subject data;
    SupportTicket.description := tkt_description data;
    SupportTicket.status := default "open" (tkt_status data);
    SupportTicket.priority := or_default (Some "medium") (tkt_priority data);
    SupportTicket.attachments := or_default (Some (JArr [])) (tkt_attachments data);
    SupportTicket.userEmail := tkt_userEmail data;
    SupportTicket.username := tkt_username data;
    SupportTicket.createdAt := db_now env;
    SupportTicket.updatedAt := db_now env |} in
  if bool_decide (db_uuid env ∈ SupportTicket.id <$> supportTickets db)
  then None
  else Some (row, {| core := core db;
                     snippetCalls := snippetCalls db;
                     projects := projects db;
                     projectFiles := projectFiles db;
                     supportTickets := supportTickets db ++ [row] |}).

Definition post_support_ticket `{Runtime} (env : Env) (body : json)
    : Database → Reply SupportTicket.t * Database :=
  tx_try
    (data ← tx_orThrow ZodError (insertSupportTicketSchema body);
     ticket ← tx_statement (insert_supportTicket env data);
     mret (reply_json ticket))
    (λ error, reply_thrown 400 error).

(** ** POST /api/daily/room *)

(** A JavaScript value bound to a uuid column: the store reads the text the
    driver sends. *)
Definition uuid_param `{Runtime} (v : json) : option (option string) :=
  match text_param v with
  | None => Some None
  | Some s => Some <$> uuid_in s
  end.

(** [db.insert(snippetCalls).values({ snippetId, roomName, roomUrl,
    startedBy, isActive: true }).returning()]; [snippetId] is declared not
    null and references [codeSnippets.id]. *)
Definition insert_snippetCall `{Runtime} (env : Env)
    (snippetId : option json) (roomName roomUrl : string)
    (startedBy : option json) (isActive : bool) (db : Database)
    : option (SnippetCall.t * Database) :=
  snippetId ← match snippetId ≫= uuid_param with
              | Some (Some u) => Some u
              | _ => None
              end;
  startedBy ← match startedBy with
              | None => Some None
              | Some v => uuid_param v
              end;
  let row := {|
    SnippetCall.id := db_uuid env;
    SnippetCall.snippetId := snippetId;
    SnippetCall.roomName := roomName;
    SnippetCall.roomUrl := roomUrl;
    SnippetCall.startedAt := Some (db_now env);
    SnippetCall.endedAt := None;
    SnippetCall.startedBy := startedBy;
    SnippetCall.isActive := Some isActive;
    SnippetCall.participantCount := Some 0;
    SnippetCall.createdAt := Some (db_now env);
    SnippetCall.updatedAt := Some (db_now env) |} in
  if bool_decide (db_uuid env ∈ SnippetCall.id <$> snippetCalls db)
  then None
  else if bool_decide (snippetId ∈ CodeSnippet.id <$> codeSnippets (core db))
  then Some (row, {| core := core db;
                     snippetCalls := snippetCalls db ++ [row];
                     projects := projects db;
                     projectFiles := projectFiles db;
                     supportTickets := supportTickets db |})
  else None.

Definition post_daily_room `{Runtime} (env : Env) (body : json)
    : Database → Reply SnippetCall.t * Database :=
  tx_try
    (o ← tx_orThrow TypeError (destructure body);
     let snippetId := o !! "snippetId" in
     let startedBy := o !! "startedBy" in
     let roomName := "snippet-" +:+ template snippetId +:+ "-" +:+ nanoid env 8 in
     let roomUrl := "https://example.daily.co/" +:+ roomName in
     call ← tx_statement (insert_snippetCall env snippetId roomName roomUrl
                            startedBy true);
     mret (reply_json call))
    (λ error, reply_error 500 "Internal server error").

(** ** Project handlers *)

Definition projects_desc_updatedAt : relation Project.t :=
  λ r1 r2, desc (Project.updatedAt r1) (Project.updatedAt r2).

#[export] Instance projects_desc_updatedAt_dec r1 r2 :
  Decision (projects_desc_updatedAt r1 r2) :=
  desc_dec (Project.updatedAt r1) (Project.updatedAt r2).

(** GET /api/projects; [ownerId] is [req.query.ownerId]. *)
Definition get_projects `{Runtime} (ownerId : option string)
    : Database → Reply (list Project.t) * Database :=
  tx_try
    (match ownerId with
     | Some owner =>
         if truthy owner then
           userProjects ← tx_statement (λ db,
             u ← uuid_in owner;
             Some (orderBy projects_desc_updatedAt
                     (where_ (Some (λ r, eq_text (Project.ownerId r) u))
                             (projects db)), db));
           mret (reply_json userProjects)
         else mret (reply_error 400 "ownerId is required")
     | None => mret (reply_error 400 "ownerId is required")
     end)
    (λ error, reply_error 500 "Internal server error").

(** [ORDER BY path]: ascending in the order [collate] of the store's text
    values. *)
Definition files_asc_path (collate : relation string) : relation ProjectFile.t :=
  λ r1 r2, collate (ProjectFile.path r1) (ProjectFile.path r2).

#[export] Instance files_asc_path_dec (collate : relation string)
    `{∀ x y, Decision (collate x y)} r1 r2 :
  Decision (files_asc_path collate r1 r2) :=
  decide (collate (ProjectFile.path r1) (ProjectFile.path r2)).

(** GET /api/projects/:projectId/files *)
Definition get_project_files `{Runtime} (collate : relation string)
    `{∀ x y, Decision (collate x y)} (projectId : string)
    : Database → Reply (list ProjectFile.t) * Database :=
  tx_try
    (files ← tx_statement (λ db,
       p ← uuid_in projectId;
       Some (orderBy (files_asc_path collate)
               (where_ (Some (λ r, eq_text (ProjectFile.projectId r) p))
                       (projectFiles db)), db));
     mret (reply_json files))
    (λ error, reply_error 500 "Internal server error").

(** * Specification vocabulary *)

(** The fields no PATCH writes. *)
Definition patch_fixed (r r' : CodeSnippet.t) : Prop :=
  CodeSnippet.id r' = CodeSnippet.id r
  ∧ CodeSnippet.ownerId r' = CodeSnippet.ownerId r
  ∧ CodeSnippet.isProtected r' = CodeSnippet.isProtected r
  ∧ CodeSnippet.isPublic r' = CodeSnippet.isPublic r
  ∧ CodeSnippet.isFeatured r' = CodeSnippet.isFeatured r
  ∧ CodeSnippet.isTemporary r' = CodeSnippet.isTemporary r
  ∧ CodeSnippet.expiresAt r' = CodeSnippet.expiresAt r
  ∧ CodeSnippet.shareToken r' = CodeSnippet.shareToken r
  ∧ CodeSnippet.createdAt r' = CodeSnippet.createdAt r.

(** What a PATCH addressed to [shareToken] may change of a stored row: of a
    row with another token nothing, of a row with that token nothing but
    [content], [title], [description], [language] and [updatedAt]. *)
Definition patch_frame (shareToken : string) (r r' : CodeSnippet.t) : Prop :=
  patch_fixed r r' ∧ (CodeSnippet.shareToken r ≠ shareToken → r' = r).

(** The keys the snippet insert schema omits. *)
Definition omitted_snippet_keys : list string :=
  [ "id"; "createdAt"; "updatedAt"; "shareToken" ].

(** ** A concrete platform and store for the examples *)

Definition upper_ascii (c : Ascii.ascii) : Ascii.ascii :=
  let n := Ascii.nat_of_ascii c in
  if bool_decide (97 ≤ n ≤ 122)%nat then Ascii.ascii_of_nat (n - 32) else c.

Fixpoint upper (s : string) : string :=
  match s with
  | EmptyString => EmptyString
  | String c rest => String (upper_ascii c) (upper rest)
  end.

(** Upper-casing of the ASCII letters; a text is a uuid when it has 36
    characters, and is stored as it is. *)
Definition example_runtime : Runtime := {|
  toUpperCase := upper;
  ToString := λ _, "[object Object]";
  prepareValue := λ _, "{}";
  zod_uuid := λ s, bool_decide (String.length s = 36%nat);
  uuid_in := λ s, if bool_decide (String.length s = 36%nat) then Some s else None;
|}.

Definition example_env (n : Z) : Env := {|
  nanoid := λ k, String.concat "" (replicate k "x");
  now := 1000 + n;
  db_now := 2000 + n;
  db_uuid := if bool_decide (n = 0)
             then "00000000-0000-4000-8000-00000000000a"
             else "00000000-0000-4000-8000-00000000000b";
|}.

Definition empty_store : Store := {|
  codeSnippets := [];
  snippetMessages := [];
  codingChallenges := [];
  challengeSubmissions := [];
  userPracticeStats := [];
|}.

Definition example_snippet : CodeSnippet.t := {|
  CodeSnippet.id := "00000000-0000-4000-8000-000000000001";
  CodeSnippet.title := "Untitled";
  CodeSnippet.description := None;
  CodeSnippet.content := Some "let x = 1";
  CodeSnippet.language := Some "javascript";
  CodeSnippet.ownerId := None;
  CodeSnippet.isProtected := Some false;
  CodeSnippet.isPublic := Some true;
  CodeSnippet.isFeatured := Some false;
  CodeSnippet.isTemporary := Some false;
  CodeSnippet.expiresAt := None;
  CodeSnippet.shareToken := "abcdefghijkl";
  CodeSnippet.createdAt := 10;
  CodeSnippet.updatedAt := 10 |}.

Definition snippet_store : Store := {|
  codeSnippets := [ example_snippet ];
  snippetMessages := [];
  codingChallenges := [];
  challengeSubmissions := [];
  userPracticeStats := [];
|}.

(** The first code unit in upper case, followed by the rest. *)
Definition capitalized `{Runtime} (s : string) : string :=
  match s with
  | EmptyString => toUpperCase EmptyString
  | String c rest => toUpperCase (String c EmptyString) +:+ rest
  end.

(** An object has the shape of a table when its keys are the table's
    columns. *)
Definition has_columns (columns : list string) (o : gmap string json) : Prop :=
  dom o = list_to_set columns.

(** The keys of the object that stands in for a missing stats row. *)
Definition zero_stats_keys : list string :=
  [ "userId"; "totalChallenges"; "totalSubmissions"; "averageScore";
    "totalPoints"; "currentStreak"; "longestStreak" ].

Definition example_user : string := "00000000-0000-4000-8000-0000000000c1".

(** The strict part of the order of the message list: the first row sorts
    before the second and not the other way round. *)
Definition messages_strictly_desc_createdAt : relation SnippetMessage.t :=
  λ m1 m2, messages_desc_createdAt m1 m2 ∧ ¬ messages_desc_createdAt m2 m1.

(** A query filter selects a column value: an absent or empty filter selects
    every value, a filter with a value selects that value. *)
Definition selects (v : option string) (x : string) : bool :=
  match v with
  | Some s => if truthy s then bool_decide (x = s) else true
  | None => true
  end.

(** The rows a challenge query asks for. *)
Definition selected (query : ChallengeQuery) (r : CodingChallenge.t) : bool :=
  selects (q_difficulty query) (CodingChallenge.difficulty r)
  && selects (q_language query) (CodingChallenge.language r).

Definition example_snippet_id : string := "00000000-0000-4000-8000-000000000001".

Definition example_message (id : string) (content : string) (createdAt : Z)
    : SnippetMessage.t := {|
  SnippetMessage.id := id;
  SnippetMessage.snippetId := example_snippet_id;
  SnippetMessage.userId := None;
  SnippetMessage.username := "ann";
  SnippetMessage.messageType := "text";
  SnippetMessage.content := Some content;
  SnippetMessage.fileUrl := None;
  SnippetMessage.fileName := None;
  SnippetMessage.fileSize := None;
  SnippetMessage.fileType := None;
  SnippetMessage.createdAt := Some createdAt;
  SnippetMessage.updatedAt := Some createdAt |}.

(** Two messages of one snippet written at the same instant. *)
Definition tie_store : Store := {|
  codeSnippets := [ example_snippet ];
  snippetMessages :=
    [ example_message "00000000-0000-4000-8000-0000000000d1" "first" 5;
      example_message "00000000-0000-4000-8000-0000000000d2" "second" 5 ];
  codingChallenges := [];
  challengeSubmissions := [];
  userPracticeStats := [];
|}.

Definition example_challenge (id difficulty language : string) (createdAt : Z)
    : CodingChallenge.t := {|
  CodingChallenge.id := id;
  CodingChallenge.title := "T";
  CodingChallenge.description := "D";
  CodingChallenge.difficulty := difficulty;
  CodingChallenge.language := language;
  CodingChallenge.testCases := JArr [];
  CodingChallenge.hints := JArr [];
  CodingChallenge.constraints := None;
  CodingChallenge.createdAt := createdAt;
  CodingChallenge.createdBy := None |}.

Definition example_challenge_id : string := "00000000-0000-4000-8000-0000000000e1".

Definition challenge_store : Store := {|
  codeSnippets := [];
  snippetMessages := [];
  codingChallenges :=
    [ example_challenge example_challenge_id "easy" "python" 1;
      example_challenge "00000000-0000-4000-8000-0000000000e2" "hard" "python" 2;
      example_challenge "00000000-0000-4000-8000-0000000000e3" "easy" "rust" 3;
      example_challenge "00000000-0000-4000-8000-0000000000e4" "easy" "python" 4 ];
  challengeSubmissions := [];
  userPracticeStats := [];
|}.

(** The object the submit handler validates: the body's properties with
    [challengeId] taken from the path. *)
Definition submission_payload (challengeId : string) (body : json) : json :=
  JObj (<["challengeId" := JStr challengeId]> (spread body)).

(** The stats fields the conflict branch of the upsert does not write. *)
Definition stats_fixed (r r' : UserPracticeStats.t) : Prop :=
  UserPracticeStats.userId r' = UserPracticeStats.userId r
  ∧ UserPracticeStats.totalChallenges r' = UserPracticeStats.totalChallenges r
  ∧ UserPracticeStats.averageScore r' = UserPracticeStats.averageScore r
  ∧ UserPracticeStats.bestRank r' = UserPracticeStats.bestRank r
  ∧ UserPracticeStats.languagesPracticed r' = UserPracticeStats.languagesPracticed r
  ∧ UserPracticeStats.difficultyBreakdown r' = UserPracticeStats.difficultyBreakdown r
  ∧ UserPracticeStats.rankDistribution r' = UserPracticeStats.rankDistribution r
  ∧ UserPracticeStats.currentStreak r' = UserPracticeStats.currentStreak r
  ∧ UserPracticeStats.longestStreak r' = UserPracticeStats.longestStreak r
  ∧ UserPracticeStats.lastSubmissionDate r' = UserPracticeStats.lastSubmissionDate r.

(** What a submission of the user [u] may change of a stored stats row: of
    another user's row nothing, of the row of [u] nothing but
    [totalSubmissions], [totalPoints] and [updatedAt]. *)
Definition stats_frame (u : string) (r r' : UserPracticeStats.t) : Prop :=
  stats_fixed r r' ∧ (UserPracticeStats.userId r ≠ u → r' = r).

(** What a successful submission of the user [u] does to a stored stats
    row: the row of [u] gets one more submission (when the count is not
    NULL) and 100 more points, every other row stays. *)
Definition stats_incremented (now : Z) (u : string) (r r' : UserPracticeStats.t)
    : Prop :=
  if bool_decide (UserPracticeStats.userId r = u)
  then UserPracticeStats.totalSubmissions r'
         = (λ n, n + 1) <$> UserPracticeStats.totalSubmissions r
       ∧ UserPracticeStats.totalPoints r' = UserPracticeStats.totalPoints r + 100
       ∧ UserPracticeStats.updatedAt r' = now
  else r' = r.

Definition submit_body (userId : string) : json :=
  JObj {[ "userId" := JStr userId; "code" := JStr "print(1)";
          "language" := JStr "python" ]}.

Definition example_stats (userId : string) (totalSubmissions : option Z)
    (totalPoints : Z) : UserPracticeStats.t := {|
  UserPracticeStats.userId := userId;
  UserPracticeStats.totalChallenges := Some 7;
  UserPracticeStats.totalSubmissions := totalSubmissions;
  UserPracticeStats.averageScore := Some "55.50";
  UserPracticeStats.bestRank := Some "B";
  UserPracticeStats.languagesPracticed := Some (JObj ∅);
  UserPracticeStats.difficultyBreakdown := Some (JObj ∅);
  UserPracticeStats.rankDistribution := Some (JObj ∅);
  UserPracticeStats.totalPoints := totalPoints;
  UserPracticeStats.currentStreak := 3;
  UserPracticeStats.longestStreak := 4;
  UserPracticeStats.lastSubmissionDate := Some 77;
  UserPracticeStats.updatedAt := 78 |}.

(** One challenge and the stats row of [example_user]. *)
Definition stats_store : Store := {|
  codeSnippets := [];
  snippetMessages := [];
  codingChallenges := [ example_challenge example_challenge_id "easy" "python" 1 ];
  challengeSubmissions := [];
  userPracticeStats := [ example_stats example_user (Some 9) 450 ];
|}.

(** One challenge and no stats row. *)
Definition fresh_store : Store := {|
  codeSnippets := [];
  snippetMessages := [];
  codingChallenges := [ example_challenge example_challenge_id "easy" "python" 1 ];
  challengeSubmissions := [];
  userPracticeStats := [];
|}.

(** What the validator reads from [submit_body userId] sent to
    [example_challenge_id]. *)
Definition submit_data (userId : string) : InsertChallengeSubmission := {|
  sub_challengeId := example_challenge_id;
  sub_userId := Value userId;
  sub_sessionId := Undefined;
  sub_code := "print(1)";
  sub_language := "python";
  sub_score := None;
  sub_rank := Undefined;
  sub_testResults := Undefined;
  sub_feedback := Undefined;
  sub_strengths := Undefined;
  sub_improvements := Undefined;
  sub_executionTimeMs := Undefined;
  sub_hintsUsed := Undefined |}.

(** The stores after a first and a second submission of [example_user] to
    [fresh_store]. *)
Definition after_first_submission : Store :=
  (post_submit (H := example_runtime) (example_env 0) example_challenge_id
     (submit_body example_user) fresh_store).2.

Definition after_second_submission : Store :=
  (post_submit (H := example_runtime) (example_env 1) example_challenge_id
     (submit_body example_user) after_first_submission).2.

(** * Vocabulary of the further properties *)

(** Primary key and unique share token of [codeSnippets]. *)
Definition snippets_unique (st : Store) : Prop :=
  NoDup (CodeSnippet.id <$> codeSnippets st)
  ∧ NoDup (CodeSnippet.shareToken <$> codeSnippets st).

(** The [set] clause the PATCH handler builds from a destructured body. *)
Definition patch_set `{Runtime} (env : Env) (o : gmap string json) : SnippetSet :=
  {| set_content := text_param <$> o !! "content";
     set_title := text_param <$> o !! "title";
     set_description := text_param <$> o !! "description";
     set_language := text_param <$> o !! "language";
     set_updatedAt := now env |}.

(** What a PATCH writes to a nullable text column, given the body's value
    for its key: nothing when the key is absent, NULL for null, the string
    for a string. *)
Definition patched (v : option json) (old new : option string) : Prop :=
  (v = None → new = old)
  ∧ (v = Some JNull → new = None)
  ∧ (∀ s, v = Some (JStr s) → new = Some s).

(** The row that creating a snippet titled "T" in [snippet_store] stores,
    and the store it leaves. *)
Definition created_snippet : CodeSnippet.t := {|
  CodeSnippet.id := "00000000-0000-4000-8000-00000000000a";
  CodeSnippet.title := "T";
  CodeSnippet.description := None;
  CodeSnippet.content := Some "";
  CodeSnippet.language := Some "javascript";
  CodeSnippet.ownerId := None;
  CodeSnippet.isProtected := Some false;
  CodeSnippet.isPublic := Some false;
  CodeSnippet.isFeatured := Some false;
  CodeSnippet.isTemporary := Some false;
  CodeSnippet.expiresAt := None;
  CodeSnippet.shareToken := "xxxxxxxxxxxx";
  CodeSnippet.createdAt := 2000;
  CodeSnippet.updatedAt := 2000 |}.

Definition created_store : Store := {|
  codeSnippets := [ example_snippet; created_snippet ];
  snippetMessages := [];
  codingChallenges := [];
  challengeSubmissions := [];
  userPracticeStats := [];
|}.

(** The statement with which the submit handler stores a submission: the
    grading it writes does not depend on the request. *)
Definition submit_statement `{Runtime} (env : Env)
    (data : InsertChallengeSubmission)
    : Store → option (ChallengeSubmission.t * Store) :=
  insert_challengeSubmission env data 100 "A+"
    (JArr [ JObj (list_to_map
              [ ("passed", JBool true); ("input", JStr "test");
                ("expected", JStr "test"); ("actual", JStr "test") ]) ])
    "Great work!"
    (JArr [ JStr "Clean code"; JStr "Efficient solution" ])
    (JArr []).

(** Primary key of [userPracticeStats]. *)
Definition stats_unique (st : Store) : Prop :=
  NoDup (UserPracticeStats.userId <$> userPracticeStats st).

(** The stats row of [example_user] at the top of the integer range. *)
Definition full_stats_store : Store := {|
  codeSnippets := [];
  snippetMessages := [];
  codingChallenges := [ example_challenge example_challenge_id "easy" "python" 1 ];
  challengeSubmissions := [];
  userPracticeStats := [ example_stats example_user (Some 9) 2147483600 ];
|}.

(** The challenge that generating "easy" / "python" in [empty_store]
    stores, and the store it leaves. *)
Definition generated_challenge : CodingChallenge.t := {|
  CodingChallenge.id := "00000000-0000-4000-8000-00000000000a";
  CodingChallenge.title := "Easy python Challenge";
  CodingChallenge.description :=
    "Practice your python skills with this easy level challenge.";
  CodingChallenge.difficulty := "easy";
  CodingChallenge.language := "python";
  CodingChallenge.testCases :=
    JArr [ JObj (list_to_map
             [ ("input", JStr "test"); ("expected", JStr "test");
               ("description", JStr "Basic test case") ]) ];
  CodingChallenge.hints :=
    JArr [ JStr "Think about how to solve this step by step in python" ];
  CodingChallenge.constraints := Some "Standard constraints apply";
  CodingChallenge.createdAt := 2000;
  CodingChallenge.createdBy := None |}.

Definition generated_store : Store := {|
  codeSnippets := [];
  snippetMessages := [];
  codingChallenges := [ generated_challenge ];
  challengeSubmissions := [];
  userPracticeStats := [];
|}.

(** Every stored message has a creation time. *)
Definition messages_dated (st : Store) : Prop :=
  Forall (λ m, is_Some (SnippetMessage.createdAt m)) (snippetMessages st).

Definition message_body : json :=
  JObj {[ "username" := JStr "bob"; "content" := JStr "hello" ]}.

(** The message that posting [message_body] with [example_env 0] stores. *)
Definition posted_message : SnippetMessage.t := {|
  SnippetMessage.id := "00000000-0000-4000-8000-00000000000a";
  SnippetMessage.snippetId := example_snippet_id;
  SnippetMessage.userId := None;
  SnippetMessage.username := "bob";
  SnippetMessage.messageType := "text";
  SnippetMessage.content := Some "hello";
  SnippetMessage.fileUrl := None;
  SnippetMessage.fileName := None;
  SnippetMessage.fileSize := None;
  SnippetMessage.fileType := None;
  SnippetMessage.createdAt := Some 2000;
  SnippetMessage.updatedAt := Some 2000 |}.

Definition posted_store : Store := {|
  codeSnippets := codeSnippets tie_store;
  snippetMessages := snippetMessages tie_store ++ [ posted_message ];
  codingChallenges := [];
  challengeSubmissions := [];
  userPracticeStats := [];
|}.

(** The keys a support ticket cannot go without. *)
Definition required_ticket_keys : list string :=
  [ "userId"; "type"; "subject"; "description"; "userEmail"; "username" ].

(** The keys the ticket insert schema omits. *)
Definition omitted_ticket_keys : list string :=
  [ "id"; "createdAt"; "updatedAt" ].

(** The order of texts by their bytes, one order a store may use for
    [ORDER BY] on a text column. *)
Definition bytewise : relation string := λ x y, String.leb x y = true.

#[export] Instance bytewise_dec x y : Decision (bytewise x y) :=
  decide (String.leb x y = true).

Definition example_project_id : string := "00000000-0000-4000-8000-0000000000f1".

Definition example_project (id name : string) (updatedAt : Z) : Project.t := {|
  Project.id := id;
  Project.ownerId := example_user;
  Project.name := name;
  Project.description := None;
  Project.githubRepoUrl := None;
  Project.githubOwner := None;
  Project.githubRepo := None;
  Project.githubBranch := Some "main";
  Project.createdAt := 1;
  Project.updatedAt := updatedAt |}.

Definition example_file (id path : string) : ProjectFile.t := {|
  ProjectFile.id := id;
  ProjectFile.projectId := example_project_id;
  ProjectFile.parentFolderId := None;
  ProjectFile.name := path;
  ProjectFile.type := "file";
  ProjectFile.content := Some "";
  ProjectFile.language := None;
  ProjectFile.path := path;
  ProjectFile.createdAt := 1;
  ProjectFile.updatedAt := 1 |}.

Definition example_database : Database := {|
  core := snippet_store;
  snippetCalls := [];
  projects :=
    [ example_project example_project_id "one" 5;
      example_project "00000000-0000-4000-8000-0000000000f2" "two" 9 ];
  projectFiles :=
    [ example_file "00000000-0000-4000-8000-0000000000a1" "src/b.ts";
      example_file "00000000-0000-4000-8000-0000000000a2" "src/a.ts" ];
  supportTickets := [];
|}.

Definition ticket_body : json :=
  JObj {[ "userId" := JStr example_user; "type" := JStr "bug";
          "subject" := JStr "s"; "description" := JStr "d";
          "userEmail" := JStr "a@b.c"; "username" := JStr "ann";
          "status" := JStr "closed" ]}.

Definition room_body : json :=
  JObj {[ "snippetId" := JStr example_snippet_id ]}.

(** * Properties *)

(** Closed decidable facts about the example data are settled by running
    their decision procedure. *)
Ltac by_decide := apply (bool_decide_unpack _); vm_compute; exact I.

(** ** Row updates *)

Section update_rows.
Context {A : Type} (p : A → bool) (f : A → option A).

Lemma update_rows_Forall2 rows rows' returning :
  update_rows p f rows = Some (rows', returning) →
  Forall2 (λ r r', if p r then f r = Some r' else r' = r) rows rows'.
Proof.
  revert rows' returning.
  induction rows as [|r rest IH]; intros rows' returning Hupd; simpl in Hupd.
  - injection Hupd as <- <-. constructor.
  - destruct (update_rows p f rest) as [[rest' ret]|] eqn:Hrest;
      simpl in Hupd; [|discriminate].
    specialize (IH _ _ eq_refl).
    destruct (p r) eqn:Hp.
    + destruct (f r) as [r'|] eqn:Hf; simpl in Hupd; [|discriminate].
      injection Hupd as <- <-. constructor; [by rewrite Hp|done].
    + injection Hupd as <- <-. constructor; [by rewrite Hp|done].
Qed.

Lemma update_rows_no_match rows :
  Forall (λ r, p r = false) rows → update_rows p f rows = Some (rows, []).
Proof.
  induction 1 as [|r rest Hr _ IH]; [done|].
  simpl. rewrite IH. simpl. by rewrite Hr.
Qed.

Lemma Forall2_update_no_match rows rows' :
  Forall (λ r, p r = false) rows →
  Forall2 (λ r r', if p r then f r = Some r' else r' = r) rows rows' →
  rows' = rows.
Proof.
  intros Hno Hrows. induction Hrows as [|r r' rows rows' Hr _ IH]; [done|].
  apply Forall_cons in Hno as [Hp Hno]. rewrite Hp in Hr. subst r'.
  by rewrite IH.
Qed.
End update_rows.

(** ** PATCH /api/snippets/:shareToken *)

Lemma patch_frame_refl shareToken r : patch_frame shareToken r r.
Proof. by repeat split. Qed.

Lemma apply_set_fixed s r r' : apply_set s r = Some r' → patch_fixed r r'.
Proof.
  unfold apply_set. intros Hset.
  destruct (default (Some _) _) as [t|]; simpl in Hset; [|discriminate].
  injection Hset as <-. by repeat split.
Qed.

Lemma eq_text_true x y : eq_text x y = true ↔ x = y.
Proof. unfold eq_text. apply bool_decide_eq_true. Qed.

Lemma eq_text_false x y : eq_text x y = false ↔ x ≠ y.
Proof. unfold eq_text. apply bool_decide_eq_false. Qed.

Section patch.
Context `{Runtime}.

(** C3. A PATCH addressed to a share token leaves every table but
    [codeSnippets] as it was, keeps the rows of [codeSnippets] in place,
    leaves the rows with another token untouched and changes, in a row
    with that token, no field other than [content], [title],
    [description], [language] and [updatedAt] (so [id], [shareToken],
    [ownerId], [isPublic], [isProtected], [createdAt] and the rest are
    kept).  When no stored row has the token and the body can be
    destructured, the response is 404 and the store is unchanged. *)
Theorem patch_snippet_frame env shareToken body st :
  let res := (patch_snippet env shareToken body st).1 in
  let st' := (patch_snippet env shareToken body st).2 in
  Forall2 (patch_frame shareToken) (codeSnippets st) (codeSnippets st')
  ∧ snippetMessages st' = snippetMessages st
  ∧ codingChallenges st' = codingChallenges st
  ∧ challengeSubmissions st' = challengeSubmissions st
  ∧ userPracticeStats st' = userPracticeStats st
  ∧ (body ≠ JNull →
     Forall (λ r, CodeSnippet.shareToken r ≠ shareToken) (codeSnippets st) →
     status res = 404%nat ∧ st' = st).
Proof.
  simpl. unfold patch_snippet, try_catch, mbind, Handler_bind, orThrow.
  destruct (destructure body) as [o|] eqn:Hbody; simpl.
  2: { split_and!; try done.
       - apply Forall_Forall2_diag, Forall_forall. intros. apply patch_frame_refl.
       - intros Hnn. by destruct body. }
  unfold statement, update_codeSnippets.
  set (s := {| set_content := _ |}).
  set (p := λ r, eq_text (CodeSnippet.shareToken r) shareToken).
  destruct (update_rows p (apply_set s) (codeSnippets st))
    as [[rows ret]|] eqn:Hupd; simpl.
  2: { split_and!; try done.
       - apply Forall_Forall2_diag, Forall_forall. intros. apply patch_frame_refl.
       - intros _ Hno. rewrite update_rows_no_match in Hupd; [done|].
         eapply Forall_impl; [exact Hno|]. intros r Hr. by apply eq_text_false. }
  assert (Hframe : Forall2 (patch_frame shareToken) (codeSnippets st) rows).
  { eapply Forall2_impl; [eapply update_rows_Forall2, Hupd|].
    intros r r' Hr. simpl in Hr. unfold p in Hr.
    destruct (eq_text _ _) eqn:Heq.
    - split; [by eapply apply_set_fixed|]. by apply eq_text_true in Heq.
    - subst r'. apply patch_frame_refl. }
  assert (Hno : Forall (λ r, CodeSnippet.shareToken r ≠ shareToken) (codeSnippets st) →
                rows = codeSnippets st ∧ ret = []).
  { intros Hno. rewrite update_rows_no_match in Hupd.
    - by injection Hupd as <- <-.
    - eapply Forall_impl; [exact Hno|]. intros r Hr. by apply eq_text_false. }
  destruct ret as [|snippet ret]; simpl; split_and!; try done.
  - intros _ Hn. destruct (Hno Hn) as [-> _]. by destruct st.
  - intros _ Hn. by destruct (Hno Hn).
Qed.
End patch.

Lemma Forall_not_elem_of_fmap {A} (f : A → string) (x : string) (l : list A) :
  Forall (λ r, f r ≠ x) l ↔ x ∉ f <$> l.
Proof.
  rewrite Forall_forall, list_elem_of_fmap. split.
  - intros Hall (r & -> & Hr). by apply (Hall r).
  - intros Hno r Hr Heq. apply Hno. by exists r.
Qed.

Lemma NoDup_fmap_eq {A B} (f : A → B) (l : list A) (x y : A) :
  NoDup (f <$> l) → x ∈ l → y ∈ l → f x = f y → x = y.
Proof.
  induction l as [|a l IH]; intros Hnd Hx Hy Hf; [by apply elem_of_nil in Hx|].
  rewrite fmap_cons in Hnd. apply NoDup_cons in Hnd as [Ha Hnd].
  apply elem_of_cons in Hx as [->|Hx]; apply elem_of_cons in Hy as [->|Hy].
  - done.
  - exfalso. apply Ha. rewrite Hf. by apply list_elem_of_fmap_2.
  - exfalso. apply Ha. rewrite <- Hf. by apply list_elem_of_fmap_2.
  - by apply IH.
Qed.

(** ** GET /api/snippets/:shareToken *)

(** C5. The lookup never writes.  When some stored snippet has the requested
    share token the response is 200 with a stored row that has that token,
    and it is that very snippet when share tokens are unique in the table
    (the table's unique constraint); when no stored snippet has the token
    the response is 404 with the not-found body. *)
Theorem get_snippet_row_or_404 shareToken st :
  let res := (get_snippet shareToken st).1 in
  (get_snippet shareToken st).2 = st
  ∧ (∀ r, r ∈ codeSnippets st → CodeSnippet.shareToken r = shareToken →
       ∃ r', res = json_ (BSnippet r')
             ∧ r' ∈ codeSnippets st
             ∧ CodeSnippet.shareToken r' = shareToken
             ∧ (NoDup (CodeSnippet.shareToken <$> codeSnippets st) → r' = r))
  ∧ (Forall (λ r, CodeSnippet.shareToken r ≠ shareToken) (codeSnippets st) →
       res = status_json 404 (BError "Snippet not found")).
Proof.
  simpl. unfold get_snippet, try_catch, mbind, Handler_bind, statement. simpl.
  set (P := λ r, eq_text (CodeSnippet.shareToken r) shareToken = true).
  assert (Hin : ∀ r, r ∈ filter P (codeSnippets st) ↔
                     r ∈ codeSnippets st ∧ CodeSnippet.shareToken r = shareToken).
  { intros r. rewrite list_elem_of_filter. unfold P. rewrite eq_text_true. tauto. }
  destruct (filter P (codeSnippets st)) as [|r' rest] eqn:Hsel; simpl.
  - split_and!; [done| |done].
    intros r Hr Htok. exfalso. eapply elem_of_nil, Hin. eauto.
  - assert (Hr' : r' ∈ codeSnippets st ∧ CodeSnippet.shareToken r' = shareToken).
    { apply Hin. left. }
    destruct Hr' as [Hr'in Hr'tok].
    split_and!; [done| |].
    + intros r Hr Htok. exists r'. split_and!; try done.
      intros Hnd. eapply NoDup_fmap_eq; eauto. congruence.
    + intros Hno. rewrite Forall_forall in Hno. by destruct (Hno r' Hr'in).
Qed.

(** The stored snippet of [snippet_store] is found by its token, and an
    unknown token gives 404. *)
Lemma get_snippet_row_or_404_witness :
  (get_snippet "abcdefghijkl" snippet_store).1 = json_ (BSnippet example_snippet)
  ∧ (get_snippet "nope" snippet_store).1
    = status_json 404 (BError "Snippet not found").
Proof.
  split.
  - destruct (get_snippet_row_or_404 "abcdefghijkl" snippet_store)
      as (_ & Hfound & _).
    destruct (Hfound example_snippet) as (r' & Hres & _ & _ & Huniq).
    + left.
    + reflexivity.
    + rewrite Hres, (Huniq ltac:(by_decide)).
      reflexivity.
  - destruct (get_snippet_row_or_404 "nope" snippet_store) as (_ & _ & Hnone).
    apply Hnone. repeat constructor. vm_compute. discriminate.
Defined.

(** The PATCH of an unknown token with an object body gives 404. *)
Lemma patch_snippet_frame_witness :
  status (patch_snippet (H := example_runtime) (example_env 0) "nope"
            (JObj {[ "title" := JStr "New" ]}) snippet_store).1 = 404%nat
  ∧ (patch_snippet (H := example_runtime) (example_env 0) "nope"
       (JObj {[ "title" := JStr "New" ]}) snippet_store).2 = snippet_store.
Proof.
  destruct (patch_snippet_frame (H := example_runtime) (example_env 0) "nope"
              (JObj {[ "title" := JStr "New" ]}) snippet_store)
    as (_ & _ & _ & _ & _ & H404).
  apply H404; [discriminate|].
  repeat constructor. vm_compute. discriminate.
Defined.

(** ** POST /api/snippets *)

Section post_snippets.
Context `{Runtime}.

Lemma insertCodeSnippetSchema_insert_omitted k v o :
  k ∈ omitted_snippet_keys →
  insertCodeSnippetSchema (JObj (<[k:=v]> o)) = insertCodeSnippetSchema (JObj o).
Proof.
  unfold omitted_snippet_keys, insertCodeSnippetSchema. intros Hk.
  repeat (apply elem_of_cons in Hk as [-> | Hk];
          [by rewrite !lookup_insert_ne by done|]).
  by apply elem_of_nil in Hk.
Qed.

Lemma insertCodeSnippetSchema_delete_omitted k o :
  k ∈ omitted_snippet_keys →
  insertCodeSnippetSchema (JObj (delete k o)) = insertCodeSnippetSchema (JObj o).
Proof.
  unfold omitted_snippet_keys, insertCodeSnippetSchema. intros Hk.
  repeat (apply elem_of_cons in Hk as [-> | Hk];
          [by rewrite !lookup_delete_ne by done|]).
  by apply elem_of_nil in Hk.
Qed.

(** C4. A payload that passes the creation validator, whose owner the store
    reads as a uuid or null, and for which the generated row id and the
    generated token are not yet in the table, is answered 200 with the
    stored row: the row is appended to [codeSnippets], its share token is
    the [nanoid(12)] of the request (12 characters long when the generator
    keeps its length), its id and both timestamps are the store's.  A
    caller-supplied [id], [createdAt], [updatedAt] or [shareToken], whatever
    its value, changes neither the response nor the store.  A payload that
    fails the validator is answered 400 and the store is unchanged. *)
Theorem post_snippets_token_and_strip env st :
  (∀ body data ownerId,
     insertCodeSnippetSchema body = Some data →
     uuid_column (or_default None (ics_ownerId data)) = Some ownerId →
     db_uuid env ∉ CodeSnippet.id <$> codeSnippets st →
     nanoid env 12 ∉ CodeSnippet.shareToken <$> codeSnippets st →
     ∃ r, post_snippets env body st
          = (json_ (BSnippet r),
             {| codeSnippets := codeSnippets st ++ [r];
                snippetMessages := snippetMessages st;
                codingChallenges := codingChallenges st;
                challengeSubmissions := challengeSubmissions st;
                userPracticeStats := userPracticeStats st |})
        ∧ CodeSnippet.shareToken r = nanoid env 12
        ∧ (String.length (nanoid env 12) = 12%nat →
           String.length (CodeSnippet.shareToken r) = 12%nat)
        ∧ CodeSnippet.id r = db_uuid env
        ∧ CodeSnippet.createdAt r = db_now env
        ∧ CodeSnippet.updatedAt r = db_now env)
  ∧ (∀ o k v,
       k ∈ omitted_snippet_keys →
       post_snippets env (JObj (<[k:=v]> o)) st = post_snippets env (JObj o) st
       ∧ post_snippets env (JObj (delete k o)) st = post_snippets env (JObj o) st)
  ∧ (∀ body,
       insertCodeSnippetSchema body = None →
       post_snippets env body st = (status_json 400 (BThrown ZodError), st)).
Proof.
  split_and!.
  - intros body data ownerId Hvalid Howner Hid Htoken.
    unfold post_snippets, try_catch, mbind, Handler_bind, orThrow, statement.
    rewrite Hvalid. simpl. unfold insert_codeSnippet. rewrite Howner. simpl.
    rewrite !bool_decide_eq_false_2 by done.
    eexists. split; [reflexivity|]. by split_and!.
  - intros o k v Hk. unfold post_snippets.
    by rewrite insertCodeSnippetSchema_insert_omitted,
               insertCodeSnippetSchema_delete_omitted.
  - intros body Hinvalid.
    unfold post_snippets, try_catch, mbind, Handler_bind, orThrow.
    by rewrite Hinvalid.
Qed.
End post_snippets.

(** A payload with a title and a forged [shareToken] stores a row whose
    token is the generated one. *)
Lemma post_snippets_token_and_strip_witness :
  ∃ r, post_snippets (H := example_runtime) (example_env 0)
         (JObj {[ "title" := JStr "T"; "shareToken" := JStr "forged" ]})
         snippet_store
       = (json_ (BSnippet r),
          {| codeSnippets := codeSnippets snippet_store ++ [r];
             snippetMessages := []; codingChallenges := [];
             challengeSubmissions := []; userPracticeStats := [] |})
     ∧ CodeSnippet.shareToken r = "xxxxxxxxxxxx"
     ∧ String.length (CodeSnippet.shareToken r) = 12%nat.
Proof.
  destruct (post_snippets_token_and_strip (H := example_runtime)
              (example_env 0) snippet_store) as (Hok & Hstrip & _).
  destruct (Hstrip {[ "title" := JStr "T" ]} "shareToken" (JStr "forged")
              ltac:(by_decide)) as [Hsame _].
  destruct (Hok (JObj {[ "title" := JStr "T" ]})
              {| ics_title := Some "T"; ics_description := Undefined;
                 ics_content := Undefined; ics_language := Undefined;
                 ics_ownerId := Undefined; ics_isProtected := Undefined;
                 ics_isPublic := Undefined; ics_isFeatured := Undefined;
                 ics_isTemporary := Undefined; ics_expiresAt := Undefined |}
              None)
    as (r & Hres & Htok & Hlen & _).
  - reflexivity.
  - reflexivity.
  - by_decide.
  - by_decide.
  - exists r. split_and!.
    + etransitivity; [|exact Hres].
      etransitivity; [|exact Hsame]. reflexivity.
    + exact Htok.
    + apply Hlen. reflexivity.
Defined.

(** ** Object literals *)

Lemma object_nil : object [] = ∅.
Proof. reflexivity. Qed.

Lemma object_cons_Some k v props :
  object ((k, Some v) :: props) = <[k:=v]> (object props).
Proof. reflexivity. Qed.

Lemma object_cons_None k props : object ((k, None) :: props) = object props.
Proof. reflexivity. Qed.

(** ** POST /api/code/format *)

(** C9. For a body that can be destructured the response is 200 with an
    object whose only property is [formattedCode], and that property is the
    body's [code] (absent when the body has none); the store is unchanged. *)
Theorem post_format_identity body o st :
  destructure body = Some o →
  ∃ out, post_format body st = (json_ (BObject out), st)
         ∧ out !! "formattedCode" = o !! "code"
         ∧ ∀ k, k ≠ "formattedCode" → out !! k = None.
Proof.
  intros Hbody.
  unfold post_format, try_catch, mbind, Handler_bind, orThrow.
  rewrite Hbody. simpl. eexists. split; [reflexivity|].
  destruct (o !! "code") as [c|].
  - rewrite object_cons_Some, object_nil.
    split; [by rewrite lookup_insert_eq|].
    intros k Hk. by rewrite lookup_insert_ne, lookup_empty.
  - rewrite object_cons_None, object_nil.
    split; [done|]. intros k _. apply lookup_empty.
Qed.

Lemma post_format_identity_witness :
  ∃ out, post_format (JObj {[ "code" := JStr "x = 1" ]}) empty_store
         = (json_ (BObject out), empty_store)
         ∧ out !! "formattedCode" = Some (JStr "x = 1").
Proof.
  destruct (post_format_identity (JObj {[ "code" := JStr "x = 1" ]})
              {[ "code" := JStr "x = 1" ]} empty_store eq_refl)
    as (out & Hres & Hcode & _).
  exists out. split; [exact Hres|]. rewrite Hcode. reflexivity.
Defined.

(** ** POST /api/coding-challenges/generate *)

Lemma substring_0_0 s : String.substring 0 0 s = EmptyString.
Proof. by destruct s. Qed.

Lemma substring_0_length s : String.substring 0 (String.length s) s = s.
Proof. induction s as [|c s IH]; [done|]. simpl. by rewrite IH. Qed.

Lemma append_empty_r s : s +:+ EmptyString = s.
Proof.
  induction s as [|c s IH]; [done|].
  change (String c s +:+ EmptyString) with (String c (s +:+ EmptyString)).
  by rewrite IH.
Qed.

Section generate.
Context `{Runtime}.

Lemma charAt0_slice1_capitalized d :
  toUpperCase (charAt0 d) +:+ slice1 d = capitalized d.
Proof.
  unfold charAt0, slice1, capitalized. destruct d as [|c rest]; simpl.
  - apply append_empty_r.
  - by rewrite substring_0_0, Nat.sub_0_r, substring_0_length.
Qed.

(** C10. A body without a difficulty string (no body object, no
    [difficulty] key, or a [difficulty] that is not a string) is answered
    500 and no row is written.  With a difficulty string [d] and a
    language string [l], and a generated row id not yet in the table, the
    response is 200 with the stored row, appended to [codingChallenges],
    whose title is [d] with its first character in upper case, a space,
    [l], and " Challenge". *)
Theorem post_generate_title env st :
  (∀ body,
     (∀ o d, body = JObj o → o !! "difficulty" ≠ Some (JStr d)) →
     post_generate env body st
     = (status_json 500 (BError "Internal server error"), st))
  ∧ (∀ o d l,
       o !! "difficulty" = Some (JStr d) →
       o !! "language" = Some (JStr l) →
       db_uuid env ∉ CodingChallenge.id <$> codingChallenges st →
       ∃ r, post_generate env (JObj o) st
            = (json_ (BChallenge r),
               {| codeSnippets := codeSnippets st;
                  snippetMessages := snippetMessages st;
                  codingChallenges := codingChallenges st ++ [r];
                  challengeSubmissions := challengeSubmissions st;
                  userPracticeStats := userPracticeStats st |})
          ∧ CodingChallenge.title r = capitalized d +:+ " " +:+ l +:+ " Challenge"
          ∧ CodingChallenge.difficulty r = d
          ∧ CodingChallenge.language r = l).
Proof.
  split.
  - intros body Hlacks.
    unfold post_generate, try_catch, mbind, Handler_bind, orThrow.
    destruct body as [| | | | |o]; try done.
    simpl. destruct (o !! "difficulty") as [[| | |d| |]|] eqn:Hd; try done.
    by destruct (Hlacks o d).
  - intros o d l Hd Hl Hfresh.
    unfold post_generate, try_catch, mbind, Handler_bind, orThrow, statement.
    simpl. rewrite Hd, Hl. simpl.
    unfold insert_codingChallenge. simpl.
    rewrite bool_decide_eq_false_2 by done.
    eexists. split; [reflexivity|]. simpl.
    by rewrite charAt0_slice1_capitalized.
Qed.
End generate.

(** A body with only a language gives 500; "easy" and "python" store the
    title "Easy python Challenge". *)
Lemma post_generate_title_witness :
  post_generate (H := example_runtime) (example_env 0)
    (JObj {[ "language" := JStr "python" ]}) empty_store
  = (status_json 500 (BError "Internal server error"), empty_store)
  ∧ ∃ r, (post_generate (H := example_runtime) (example_env 0)
            (JObj {[ "difficulty" := JStr "easy"; "language" := JStr "python" ]})
            empty_store).1 = json_ (BChallenge r)
         ∧ CodingChallenge.title r = "Easy python Challenge".
Proof.
  destruct (post_generate_title (H := example_runtime) (example_env 0) empty_store)
    as [H500 Hok].
  split.
  - apply H500. intros o d [= <-]. vm_compute. discriminate.
  - destruct (Hok ({[ "difficulty" := JStr "easy"; "language" := JStr "python" ]}
                     : gmap string json) "easy" "python")
      as (r & Hres & Htitle & _);
      [vm_compute; reflexivity | vm_compute; reflexivity | by_decide |].
    exists r. split; [by rewrite Hres|]. rewrite Htitle. reflexivity.
Defined.

(** ** GET /api/users/:userId/stats *)

Section user_stats.
Context `{Runtime}.

(** C8 (as amended). For a user id that the store reads as the uuid [u]:
    the lookup never writes; when no stats row is stored for [u] the
    response is 200 (not 404) with an object that echoes the requested
    [userId], has zero for [totalChallenges], [totalSubmissions],
    [totalPoints], [currentStreak] and [longestStreak] and "0.00" for
    [averageScore], and has exactly these seven keys, each a column of the
    table; when a row is stored for [u], the response is 200 with a
    stored row of [u], which is that row when user ids are unique in the
    table (its primary key). *)
Theorem get_user_stats_zero_or_row userId u st :
  uuid_in userId = Some u →
  let res := (get_user_stats userId st).1 in
  (get_user_stats userId st).2 = st
  ∧ (Forall (λ r, UserPracticeStats.userId r ≠ u) (userPracticeStats st) →
     ∃ o, res = json_ (BObject o)
          ∧ o !! "userId" = Some (JStr userId)
          ∧ o !! "totalChallenges" = Some (JNum 0)
          ∧ o !! "totalSubmissions" = Some (JNum 0)
          ∧ o !! "averageScore" = Some (JStr "0.00")
          ∧ o !! "totalPoints" = Some (JNum 0)
          ∧ o !! "currentStreak" = Some (JNum 0)
          ∧ o !! "longestStreak" = Some (JNum 0)
          ∧ has_columns zero_stats_keys o
          ∧ zero_stats_keys ⊆ UserPracticeStats.columns)
  ∧ (∀ r, r ∈ userPracticeStats st → UserPracticeStats.userId r = u →
     ∃ r', res = json_ (BStats r')
           ∧ r' ∈ userPracticeStats st
           ∧ UserPracticeStats.userId r' = u
           ∧ (NoDup (UserPracticeStats.userId <$> userPracticeStats st) →
              r' = r)).
Proof.
  intros Hu. simpl.
  unfold get_user_stats, try_catch, mbind, Handler_bind, statement.
  rewrite Hu. simpl.
  set (P := λ r, eq_text (UserPracticeStats.userId r) u = true).
  assert (Hin : ∀ r, r ∈ filter P (userPracticeStats st) ↔
                     r ∈ userPracticeStats st ∧ UserPracticeStats.userId r = u).
  { intros r. rewrite list_elem_of_filter. unfold P. rewrite eq_text_true. tauto. }
  destruct (filter P (userPracticeStats st)) as [|r' rest] eqn:Hsel; simpl.
  - split_and!; [done| |].
    + intros _. eexists. split; [reflexivity|].
      split_and!; try done.
      unfold zero_stats_keys, UserPracticeStats.columns. set_solver.
    + intros r Hr Hu'. exfalso. eapply elem_of_nil, Hin. eauto.
  - assert (Hr' : r' ∈ userPracticeStats st ∧ UserPracticeStats.userId r' = u).
    { apply Hin. left. }
    destruct Hr' as [Hr'in Hr'u].
    split_and!; [done| |].
    + intros Hno. rewrite Forall_forall in Hno. by destruct (Hno r' Hr'in).
    + intros r Hr Hru. exists r'. split_and!; try done.
      intros Hnd. eapply NoDup_fmap_eq; eauto. congruence.
Qed.
End user_stats.

(** The zero object for a user without a stats row. *)
Lemma get_user_stats_zero_or_row_witness :
  ∃ o, (get_user_stats (H := example_runtime) example_user empty_store).1
       = json_ (BObject o)
       ∧ o !! "userId" = Some (JStr example_user)
       ∧ o !! "totalPoints" = Some (JNum 0).
Proof.
  destruct (get_user_stats_zero_or_row (H := example_runtime) example_user
              example_user empty_store eq_refl) as (_ & Hzero & _).
  destruct (Hzero ltac:(constructor))
    as (o & Hres & Hid & _ & _ & _ & Hpoints & _).
  exists o. by split_and!.
Defined.

(** The zero object has no [updatedAt], a column of the table that is not
    null: it does not have the shape of a stats row. *)
Lemma get_user_stats_shape_counterexample :
  ∃ o, (get_user_stats (H := example_runtime) example_user empty_store).1
       = json_ (BObject o)
       ∧ o !! "updatedAt" = None
       ∧ "updatedAt" ∈ UserPracticeStats.columns
       ∧ ¬ has_columns UserPracticeStats.columns o.
Proof.
  eexists. split; [reflexivity|]. split_and!.
  - reflexivity.
  - by_decide.
  - unfold has_columns. intros Hdom.
    assert (Hin : "updatedAt" ∈ (list_to_set UserPracticeStats.columns : gset string)).
    { apply elem_of_list_to_set. by_decide. }
    rewrite <- Hdom in Hin. apply elem_of_dom in Hin as [v Hv].
    vm_compute in Hv. discriminate.
Qed.

(** ** Ordered, limited queries *)

#[local] Instance desc_total : Total desc.
Proof. intros x y. unfold desc. lia. Qed.

#[local] Instance desc_trans : Transitive desc.
Proof. intros x y z. unfold desc. lia. Qed.

#[local] Instance desc_nulls_first_total : Total desc_nulls_first.
Proof. intros [x|] [y|]; simpl; try tauto. lia. Qed.

#[local] Instance desc_nulls_first_trans : Transitive desc_nulls_first.
Proof. intros [x|] [y|] [z|]; simpl; try tauto. lia. Qed.

#[local] Instance messages_desc_createdAt_total : Total messages_desc_createdAt.
Proof. intros x y. apply desc_nulls_first_total. Qed.

#[local] Instance messages_desc_createdAt_trans : Transitive messages_desc_createdAt.
Proof. intros x y z. apply desc_nulls_first_trans. Qed.

#[local] Instance challenges_desc_createdAt_total : Total challenges_desc_createdAt.
Proof. intros x y. apply desc_total. Qed.

#[local] Instance challenges_desc_createdAt_trans : Transitive challenges_desc_createdAt.
Proof. intros x y z. apply desc_trans. Qed.

Section limit.
Context {A : Type} (R : relation A) `{∀ x y, Decision (R x y)}.
Context `{!Transitive R} `{!Total R}.

(** [ORDER BY ... LIMIT n]: the first [n] rows of the order, or all rows
    when there are fewer; every row left out sorts after every row kept. *)
Lemma take_orderBy n rows :
  let l := take n (orderBy R rows) in
  length l = (n `min` length rows)%nat
  ∧ StronglySorted R l
  ∧ (∀ x, x ∈ l → x ∈ rows)
  ∧ ∃ rest, rows ≡ₚ l ++ rest ∧ ∀ x y, x ∈ l → y ∈ rest → R x y.
Proof.
  simpl. unfold orderBy.
  pose proof (merge_sort_Permutation R rows) as Hperm.
  pose proof (StronglySorted_merge_sort R rows) as Hsorted.
  rewrite <- (take_drop n (merge_sort R rows)) in Hsorted.
  split_and!.
  - by rewrite length_take, Hperm.
  - by eapply StronglySorted_app_1_l.
  - intros x Hx. rewrite <- Hperm, <- (take_drop n (merge_sort R rows)).
    apply elem_of_app. by left.
  - exists (drop n (merge_sort R rows)). split.
    + by rewrite take_drop.
    + intros x y. by apply StronglySorted_app_1_elem_of.
Qed.
End limit.

(** ** GET /api/snippets/:snippetId/messages *)

Section messages.
Context `{Runtime}.

(** C6 (as amended). For a snippet id that the store reads as the uuid
    [sid], the list is answered 200 and never writes; it has at most 100
    rows, namely 100 when the snippet has more than 100 messages and all
    of them otherwise; every row is a stored message of that snippet; the
    rows are in descending order of creation time in which equal times
    may follow each other (and a row without creation time comes first);
    every message of the snippet that is left out sorts after every row
    returned. *)
Theorem get_messages_newest_first snippetId sid st :
  uuid_in snippetId = Some sid →
  ∃ l, get_messages snippetId st = (json_ (BMessages l), st)
       ∧ (length l ≤ 100)%nat
       ∧ length l
         = (100 `min` length (filter (λ m, SnippetMessage.snippetId m = sid)
                                     (snippetMessages st)))%nat
       ∧ (∀ m, m ∈ l →
            m ∈ snippetMessages st ∧ SnippetMessage.snippetId m = sid)
       ∧ StronglySorted messages_desc_createdAt l
       ∧ ∃ rest,
           filter (λ m, SnippetMessage.snippetId m = sid) (snippetMessages st)
           ≡ₚ l ++ rest
           ∧ ∀ m m', m ∈ l → m' ∈ rest → messages_desc_createdAt m m'.
Proof.
  intros Hsid.
  unfold get_messages, try_catch, mbind, Handler_bind, statement.
  rewrite Hsid. simpl. eexists. split; [reflexivity|].
  rewrite (list_filter_iff _ (λ m, SnippetMessage.snippetId m = sid))
    by (intros m; apply eq_text_true).
  destruct (take_orderBy messages_desc_createdAt 100
              (filter (λ m, SnippetMessage.snippetId m = sid)
                      (snippetMessages st)))
    as (Hlen & Hsorted & Hsub & Hrest).
  split_and!; try done.
  - rewrite Hlen. lia.
  - intros m Hm. apply Hsub, list_elem_of_filter in Hm. tauto.
Qed.
End messages.

(** The two messages of [tie_store] are returned. *)
Lemma get_messages_newest_first_witness :
  ∃ l, get_messages (H := example_runtime) example_snippet_id tie_store
       = (json_ (BMessages l), tie_store)
       ∧ length l = 2%nat.
Proof.
  destruct (get_messages_newest_first (H := example_runtime) example_snippet_id
              example_snippet_id tie_store eq_refl)
    as (l & Hres & _ & Hlen & _).
  exists l. split; [exact Hres|]. rewrite Hlen. reflexivity.
Defined.

(** Two messages written at the same instant are both returned, one after
    the other: the list is not in strictly descending order. *)
Lemma get_messages_strict_counterexample :
  ∃ l, get_messages (H := example_runtime) example_snippet_id tie_store
       = (json_ (BMessages l), tie_store)
       ∧ ¬ Sorted messages_strictly_desc_createdAt l.
Proof.
  eexists. split; [vm_compute; reflexivity|].
  intros Hsorted. apply Sorted_inv in Hsorted as [_ Hhd].
  apply HdRel_inv in Hhd as [_ Hnot]. apply Hnot. vm_compute. discriminate.
Qed.

(** ** GET /api/coding-challenges *)

Lemma filter_all_true {A} (P : A → Prop) `{∀ x, Decision (P x)} (l : list A) :
  (∀ x, P x) → filter P l = l.
Proof.
  intros HP. induction l as [|x l IH]; [done|].
  by rewrite filter_cons_True, IH.
Qed.

Lemma selects_true v x :
  selects v x = true ↔ ∀ s, v = Some s → truthy s = true → x = s.
Proof.
  unfold selects. destruct v as [s|]; [|by split].
  destruct (truthy s) eqn:Hs.
  - rewrite bool_decide_eq_true. split.
    + by intros -> s' [= <-] _.
    + intros Hx. by apply Hx.
  - split; [|done]. intros _ s' [= <-] Hs'. congruence.
Qed.

(** The conditions the handler collects select the rows the query asks
    for. *)
Lemma where_conditions query rows :
  where_
    (let conditions :=
       push_if (q_language query)
         (λ l r, eq_text (CodingChallenge.language r) l)
         (push_if (q_difficulty query)
            (λ d r, eq_text (CodingChallenge.difficulty r) d) []) in
     if bool_decide (0 < length conditions)%nat
     then Some (and_ conditions) else None) rows
  = filter (λ r, selected query r = true) rows.
Proof.
  unfold selected, selects, push_if.
  destruct (q_difficulty query) as [d|], (q_language query) as [l|];
    repeat match goal with |- context [truthy ?s] => destruct (truthy s) end;
    simpl; unfold and_, eq_text; simpl;
    first [ symmetry; apply filter_all_true; done
          | apply list_filter_iff; intros r;
            rewrite ?andb_true_r; done ].
Qed.

(** C7. The challenge list is answered 200 and never writes.  Its rows are
    the first 50, in descending order of creation time, of the stored
    challenges the query selects, where an absent (or empty) filter selects
    every row: so there are at most 50 rows, each stored; with a difficulty
    and a language filter every row has that difficulty and that language;
    with a single filter every row satisfies it whatever its other column;
    without filters the rows are the first 50 of the whole table; and every
    selected challenge that is left out is no newer than any row
    returned. *)
Theorem get_challenges_filtered query st :
  ∃ l, get_challenges query st = (json_ (BChallenges l), st)
       ∧ l = take 50 (orderBy challenges_desc_createdAt
                        (filter (λ r, selected query r = true)
                                (codingChallenges st)))
       ∧ (length l ≤ 50)%nat
       ∧ StronglySorted challenges_desc_createdAt l
       ∧ (∀ r, r ∈ l → r ∈ codingChallenges st)
       ∧ (∀ d r, q_difficulty query = Some d → truthy d = true → r ∈ l →
            CodingChallenge.difficulty r = d)
       ∧ (∀ lg r, q_language query = Some lg → truthy lg = true → r ∈ l →
            CodingChallenge.language r = lg)
       ∧ (q_difficulty query = None → q_language query = None →
            l = take 50 (orderBy challenges_desc_createdAt (codingChallenges st)))
       ∧ ∃ rest,
           filter (λ r, selected query r = true) (codingChallenges st)
           ≡ₚ l ++ rest
           ∧ ∀ r r', r ∈ l → r' ∈ rest →
               CodingChallenge.createdAt r' ≤ CodingChallenge.createdAt r.
Proof.
  unfold get_challenges, try_catch, mbind, Handler_bind, statement. simpl.
  rewrite where_conditions.
  eexists. split; [reflexivity|]. split; [reflexivity|].
  destruct (take_orderBy challenges_desc_createdAt 50
              (filter (λ r, selected query r = true) (codingChallenges st)))
    as (Hlen & Hsorted & Hsub & Hrest).
  assert (Hsel : ∀ r,
    r ∈ take 50 (orderBy challenges_desc_createdAt
                   (filter (λ r, selected query r = true) (codingChallenges st))) →
    r ∈ codingChallenges st
    ∧ selects (q_difficulty query) (CodingChallenge.difficulty r) = true
    ∧ selects (q_language query) (CodingChallenge.language r) = true).
  { intros r Hr. apply Hsub, list_elem_of_filter in Hr as [Hr Hin].
    apply andb_true_iff in Hr. tauto. }
  split_and!; try done.
  - rewrite Hlen. lia.
  - intros r Hr. by apply Hsel.
  - intros d r Hd Ht Hr. apply Hsel in Hr as (_ & Hr & _).
    by eapply selects_true.
  - intros lg r Hlg Ht Hr. apply Hsel in Hr as (_ & _ & Hr).
    by eapply selects_true.
  - intros Hd Hlg. f_equal. f_equal. apply filter_all_true.
    intros r. unfold selected. by rewrite Hd, Hlg.
Qed.

(** With difficulty "easy" and language "python" the two matching rows of
    [challenge_store] are returned, the newer first. *)
Lemma get_challenges_filtered_witness :
  ∃ l, get_challenges {| q_difficulty := Some "easy"; q_language := Some "python" |}
         challenge_store = (json_ (BChallenges l), challenge_store)
       ∧ CodingChallenge.createdAt <$> l = [4; 1]
       ∧ ∀ r, r ∈ l → CodingChallenge.difficulty r = "easy"
                      ∧ CodingChallenge.language r = "python".
Proof.
  destruct (get_challenges_filtered
              {| q_difficulty := Some "easy"; q_language := Some "python" |}
              challenge_store)
    as (l & Hres & Hl & _ & _ & _ & Hd & Hlg & _).
  exists l. split_and!.
  - exact Hres.
  - rewrite Hl. vm_compute. reflexivity.
  - intros r Hr. split.
    + by apply (Hd "easy" r eq_refl eq_refl).
    + by apply (Hlg "python" r eq_refl eq_refl).
Defined.

(** ** POST /api/coding-challenges/:challengeId/submit *)

Lemma stats_fixed_refl r : stats_fixed r r.
Proof. by repeat split. Qed.

Lemma int4_add_Some a b c : int4_add a b = Some c → c = a + b.
Proof. unfold int4_add. case_match; naive_solver. Qed.

Lemma nullable_add_Some x n y :
  nullable_add x n = Some y → y = (λ a, a + n) <$> x.
Proof.
  unfold nullable_add. destruct x as [a|]; simpl; [|naive_solver].
  destruct (int4_add a n) as [c|] eqn:Hadd; simpl; [|done].
  apply int4_add_Some in Hadd. naive_solver.
Qed.

Lemma stats_conflict_set_spec env score r r' :
  stats_conflict_set env score r = Some r' →
  stats_fixed r r'
  ∧ UserPracticeStats.totalSubmissions r'
    = (λ n, n + 1) <$> UserPracticeStats.totalSubmissions r
  ∧ UserPracticeStats.totalPoints r' = UserPracticeStats.totalPoints r + score
  ∧ UserPracticeStats.updatedAt r' = now env.
Proof.
  unfold stats_conflict_set. intros Hset.
  destruct (nullable_add _ 1) as [ts|] eqn:Hts; simpl in Hset; [|done].
  destruct (int4_add _ score) as [tp|] eqn:Htp; simpl in Hset; [|done].
  injection Hset as <-. simpl.
  apply nullable_add_Some in Hts. apply int4_add_Some in Htp.
  by split_and!.
Qed.

Section submit.
Context `{Runtime}.

Lemma insert_challengeSubmission_stats env data score rank testResults
    feedback strengths improvements st submission st1 :
  insert_challengeSubmission env data score rank testResults feedback
    strengths improvements st = Some (submission, st1) →
  userPracticeStats st1 = userPracticeStats st.
Proof.
  unfold insert_challengeSubmission. intros Hins.
  repeat (match type of Hins with
          | context [mbind _ ?m] => destruct m; simpl in Hins; [|done]
          end).
  repeat case_match; try done. by injection Hins as <- <-.
Qed.

(** The upsert on the stats table: a new row for a user without one, the
    conflict [set] on the row of a user who has one. *)
Lemma upsert_userPracticeStats_spec env userId score st1 st' :
  upsert_userPracticeStats env userId score st1 = Some ((), st') →
  ∃ u, uuid_in userId = Some u
    ∧ (if bool_decide (u ∈ UserPracticeStats.userId <$> userPracticeStats st1)
       then Forall2 (λ r r',
              if eq_text (UserPracticeStats.userId r) u
              then stats_conflict_set env score r = Some r' else r' = r)
              (userPracticeStats st1) (userPracticeStats st')
       else userPracticeStats st'
            = (userPracticeStats st1 ++ [stats_values env u score])%list).
Proof.
  unfold upsert_userPracticeStats. intros Hup.
  destruct (uuid_in userId) as [u|]; simpl in Hup; [|done].
  exists u. split; [done|].
  destruct (negb (int4_ok score)); [done|].
  destruct (bool_decide (u ∈ _)).
  - destruct (update_rows _ _ _) as [[rows ret]|] eqn:Hrows;
      simpl in Hup; [|done].
    injection Hup as <-. simpl. by eapply update_rows_Forall2.
  - by injection Hup as <-.
Qed.

(** What the handler does to the stats table: nothing, or the upsert for
    the known user of a stored submission. *)
Lemma post_submit_stats env challengeId body st :
  let res := (post_submit env challengeId body st).1 in
  let st' := (post_submit env challengeId body st).2 in
  (userPracticeStats st' = userPracticeStats st
   ∧ ∀ data, insertChallengeSubmissionSchema
               (submission_payload challengeId body) = Some data →
             status res = 200%nat → known_user data = None)
  ∨ (∃ data userId st1,
       insertChallengeSubmissionSchema (submission_payload challengeId body)
       = Some data
       ∧ known_user data = Some userId
       ∧ userPracticeStats st1 = userPracticeStats st
       ∧ upsert_userPracticeStats env userId 100 st1 = Some ((), st')
       ∧ status res = 200%nat).
Proof.
  cbv zeta.
  unfold post_submit, try_catch, mbind, Handler_bind, orThrow, statement,
    submission_payload.
  generalize (insertChallengeSubmissionSchema
                (JObj (<["challengeId" := JStr challengeId]> (spread body)))).
  intros [data|]; simpl.
  2: { left. by split. }
  destruct (insert_challengeSubmission _ _ _ _ _ _ _ _ _)
    as [[submission st1]|] eqn:Hins; simpl.
  2: { left. by split. }
  apply insert_challengeSubmission_stats in Hins.
  destruct (known_user data) as [userId|] eqn:Hknown; simpl.
  2: { left. split; [done|]. intros data' Hdata' _. congruence. }
  destruct (upsert_userPracticeStats env userId 100 st1) as [[[] st2]|] eqn:Hup;
    simpl.
  - right. by exists data, userId, st1.
  - left. split; [done|]. intros data' _ Hstatus. done.
Qed.
End submit.

Section submit_stats.
Context `{Runtime}.

(** A successful submission of a known user ran the upsert. *)
Lemma post_submit_known env challengeId body st data userId :
  insertChallengeSubmissionSchema (submission_payload challengeId body)
  = Some data →
  known_user data = Some userId →
  status (post_submit env challengeId body st).1 = 200%nat →
  ∃ st1, userPracticeStats st1 = userPracticeStats st
         ∧ upsert_userPracticeStats env userId 100 st1
           = Some ((), (post_submit env challengeId body st).2).
Proof.
  intros Hdata Hknown Hok.
  destruct (post_submit_stats env challengeId body st)
    as [[_ Hnone]|(data' & userId' & st1 & Hdata' & Hknown' & Hst1 & Hup & _)].
  - specialize (Hnone data Hdata Hok). congruence.
  - exists st1. split; [done|].
    assert (data' = data) as -> by congruence.
    by assert (userId' = userId) as -> by congruence.
Qed.

(** C2. When the payload of a submission names a known user whose stats
    row is stored, the handler keeps the rows of the stats table in place,
    leaves the rows of other users untouched and changes, in the row of
    that user, no field other than [totalSubmissions], [totalPoints] and
    [updatedAt]: [averageScore], [totalChallenges], [currentStreak],
    [longestStreak], [lastSubmissionDate] (and [userId], [bestRank] and
    the three breakdown columns) are as before. *)
Theorem post_submit_conflict_frame env challengeId body st data userId u :
  insertChallengeSubmissionSchema (submission_payload challengeId body)
  = Some data →
  known_user data = Some userId →
  uuid_in userId = Some u →
  u ∈ UserPracticeStats.userId <$> userPracticeStats st →
  Forall2 (stats_frame u) (userPracticeStats st)
          (userPracticeStats (post_submit env challengeId body st).2).
Proof.
  intros Hdata Hknown Hu Hrow.
  destruct (post_submit_stats env challengeId body st)
    as [[-> _]|(data' & userId' & st1 & Hdata' & Hknown' & Hst1 & Hup & _)].
  - apply Forall_Forall2_diag, Forall_forall. intros r _.
    split; [apply stats_fixed_refl|done].
  - assert (data' = data) as -> by congruence.
    assert (userId' = userId) as -> by congruence.
    apply upsert_userPracticeStats_spec in Hup as (u' & Hu' & Hup).
    assert (u' = u) as -> by congruence.
    rewrite Hst1, bool_decide_eq_true_2 in Hup by done.
    eapply Forall2_impl; [exact Hup|]. intros r r' Hr. simpl in Hr.
    destruct (eq_text _ u) eqn:Heq.
    + apply stats_conflict_set_spec in Hr as [Hfixed _].
      split; [done|]. by apply eq_text_true in Heq.
    + subst r'. split; [apply stats_fixed_refl|done].
Qed.

(** C1. For a submission that is answered 200 and whose validated payload
    names a known user, read by the store as the uuid [u]: when no stats
    row is stored for [u], one is appended with [totalChallenges] 1,
    [totalSubmissions] 1, [averageScore] "100.00" and [totalPoints] 100;
    when a row is stored for [u], its [totalSubmissions] is the old value
    plus 1 and its [totalPoints] the old value plus 100, and the rows of
    other users are as before.  So after two such submissions of a user
    who had no row, that user's row has [totalSubmissions] 2 and
    [totalPoints] 200. *)
Theorem post_submit_upserts_stats env challengeId body st data userId u :
  insertChallengeSubmissionSchema (submission_payload challengeId body)
  = Some data →
  known_user data = Some userId →
  uuid_in userId = Some u →
  status (post_submit env challengeId body st).1 = 200%nat →
  let st' := (post_submit env challengeId body st).2 in
  (u ∉ UserPracticeStats.userId <$> userPracticeStats st →
   ∃ r, userPracticeStats st' = (userPracticeStats st ++ [r])%list
        ∧ r = stats_values env u 100
        ∧ UserPracticeStats.userId r = u
        ∧ UserPracticeStats.totalChallenges r = Some 1
        ∧ UserPracticeStats.totalSubmissions r = Some 1
        ∧ UserPracticeStats.averageScore r = Some "100.00"
        ∧ UserPracticeStats.totalPoints r = 100)
  ∧ (u ∈ UserPracticeStats.userId <$> userPracticeStats st →
     Forall2 (stats_incremented (now env) u)
             (userPracticeStats st) (userPracticeStats st'))
  ∧ (∀ env2 challengeId2 body2 data2 userId2,
       insertChallengeSubmissionSchema (submission_payload challengeId2 body2)
       = Some data2 →
       known_user data2 = Some userId2 →
       uuid_in userId2 = Some u →
       status (post_submit env2 challengeId2 body2 st').1 = 200%nat →
       u ∉ UserPracticeStats.userId <$> userPracticeStats st →
       ∃ r, userPracticeStats (post_submit env2 challengeId2 body2 st').2
            = (userPracticeStats st ++ [r])%list
            ∧ UserPracticeStats.userId r = u
            ∧ UserPracticeStats.totalSubmissions r = Some 2
            ∧ UserPracticeStats.totalPoints r = 200).
Proof.
  intros Hdata Hknown Hu Hok st'.
  destruct (post_submit_known env challengeId body st data userId)
    as (st1 & Hst1 & Hup); [done..|].
  apply upsert_userPracticeStats_spec in Hup as (u' & Hu' & Hup).
  assert (u' = u) as -> by congruence. fold st' in Hup. rewrite Hst1 in Hup.
  assert (Hnew : u ∉ UserPracticeStats.userId <$> userPracticeStats st →
                 userPracticeStats st'
                 = (userPracticeStats st ++ [stats_values env u 100])%list).
  { intros Hno. by rewrite bool_decide_eq_false_2 in Hup. }
  assert (Hold : ∀ now' (rows rows' : list UserPracticeStats.t) env',
            now env' = now' →
            Forall2 (λ r r', if eq_text (UserPracticeStats.userId r) u
                             then stats_conflict_set env' 100 r = Some r'
                             else r' = r) rows rows' →
            Forall2 (stats_incremented now' u) rows rows').
  { intros now' rows rows' env' Hnow Hrows.
    eapply Forall2_impl; [exact Hrows|]. intros r r' Hr. simpl in Hr.
    unfold stats_incremented. unfold eq_text in Hr.
    destruct (bool_decide (UserPracticeStats.userId r = u)); [|done].
    apply stats_conflict_set_spec in Hr as (_ & Hts & Htp & Hat).
    split_and!; congruence. }
  split_and!.
  - intros Hno. eexists. split; [by apply Hnew|]. by split_and!.
  - intros Hrow. rewrite bool_decide_eq_true_2 in Hup by done.
    by eapply Hold.
  - intros env2 challengeId2 body2 data2 userId2 Hdata2 Hknown2 Hu2 Hok2 Hno.
    destruct (post_submit_known env2 challengeId2 body2 st' data2 userId2)
      as (st2 & Hst2 & Hup2); [done..|].
    apply upsert_userPracticeStats_spec in Hup2 as (u2 & Hu2' & Hup2).
    assert (u2 = u) as -> by congruence.
    rewrite Hst2, (Hnew Hno) in Hup2.
    rewrite bool_decide_eq_true_2 in Hup2.
    2: { rewrite fmap_app. apply elem_of_app. right. simpl. left. }
    apply Forall2_app_inv_l in Hup2 as (rows & last & Hrows & Hlast & ->).
    assert (rows = userPracticeStats st) as ->.
    { eapply Forall2_update_no_match; [|exact Hrows].
      apply Forall_forall. intros r Hr. apply eq_text_false. intros <-.
      apply Hno. by apply list_elem_of_fmap_2. }
    apply Forall2_cons_inv_l in Hlast as (r & tl & Hr & Htl & ->).
    apply Forall2_nil_inv_l in Htl as ->.
    simpl in Hr. unfold eq_text in Hr.
    rewrite bool_decide_eq_true_2 in Hr by done.
    apply stats_conflict_set_spec in Hr as (Hfixed & Hts & Htp & _).
    exists r. split_and!; [done|by destruct Hfixed| |].
    + by rewrite Hts.
    + by rewrite Htp.
Qed.
End submit_stats.

(** Two submissions of [example_user], who had no stats row, leave one row
    with [totalSubmissions] 2 and [totalPoints] 200. *)
Lemma post_submit_upserts_stats_witness :
  userPracticeStats after_first_submission
  = [ stats_values (example_env 0) example_user 100 ]
  ∧ ∃ r, userPracticeStats after_second_submission = [ r ]
         ∧ UserPracticeStats.totalSubmissions r = Some 2
         ∧ UserPracticeStats.totalPoints r = 200.
Proof.
  unfold after_second_submission, after_first_submission.
  destruct (post_submit_upserts_stats (H := example_runtime) (example_env 0)
              example_challenge_id (submit_body example_user) fresh_store
              (submit_data example_user) example_user example_user)
    as (Hnew & _ & Htwice).
  - vm_compute. reflexivity.
  - reflexivity.
  - reflexivity.
  - reflexivity.
  - split.
    + destruct Hnew as (r & Hrows & -> & _); [by_decide|]. exact Hrows.
    + destruct (Htwice (example_env 1) example_challenge_id
                  (submit_body example_user) (submit_data example_user)
                  example_user)
        as (r & Hrows & _ & Hts & Htp).
      * vm_compute. reflexivity.
      * reflexivity.
      * reflexivity.
      * vm_compute. reflexivity.
      * by_decide.
      * exists r. split_and!; [exact Hrows|exact Hts|exact Htp].
Defined.

(** A submission of [example_user], whose row is stored, changes none of
    the fixed fields of that row. *)
Lemma post_submit_conflict_frame_witness :
  Forall2 (stats_frame example_user)
    [ example_stats example_user (Some 9) 450 ]
    (userPracticeStats
       (post_submit (H := example_runtime) (example_env 0) example_challenge_id
          (submit_body example_user) stats_store).2).
Proof.
  apply (post_submit_conflict_frame (H := example_runtime) (example_env 0)
           example_challenge_id (submit_body example_user) stats_store
           (submit_data example_user) example_user example_user).
  - vm_compute. reflexivity.
  - reflexivity.
  - reflexivity.
  - by_decide.
Defined.

(** * Further properties of the handlers *)

(** ** Snippets: creation, lookup and update together *)

Section update_rows_more.
Context {A : Type} (p : A → bool) (f : A → option A).

Lemma update_rows_returning rows rows' returning :
  update_rows p f rows = Some (rows', returning) →
  Forall2 (λ r r', f r = Some r') (filter (λ r, p r = true) rows) returning.
Proof.
  revert rows' returning.
  induction rows as [|r rest IH]; intros rows' returning Hupd; simpl in Hupd.
  - injection Hupd as <- <-. constructor.
  - destruct (update_rows p f rest) as [[rest' ret]|] eqn:Hrest;
      simpl in Hupd; [|discriminate].
    specialize (IH _ _ eq_refl).
    destruct (p r) eqn:Hp.
    + destruct (f r) as [r'|] eqn:Hf; simpl in Hupd; [|discriminate].
      injection Hupd as <- <-.
      rewrite filter_cons_True by done. by constructor.
    + injection Hupd as <- <-.
      rewrite filter_cons_False by (by rewrite Hp). done.
Qed.

(** When the update keeps the truth of the condition, the rows it returns
    are the rows a later query with the same condition finds. *)
Lemma update_rows_filter rows rows' returning :
  (∀ r r', f r = Some r' → p r' = p r) →
  update_rows p f rows = Some (rows', returning) →
  filter (λ r, p r = true) rows' = returning.
Proof.
  intros Hkeep. revert rows' returning.
  induction rows as [|r rest IH]; intros rows' returning Hupd; simpl in Hupd.
  - by injection Hupd as <- <-.
  - destruct (update_rows p f rest) as [[rest' ret]|] eqn:Hrest;
      simpl in Hupd; [|discriminate].
    specialize (IH _ _ eq_refl).
    destruct (p r) eqn:Hp.
    + destruct (f r) as [r'|] eqn:Hf; simpl in Hupd; [|discriminate].
      injection Hupd as <- <-.
      rewrite filter_cons_True by (by rewrite (Hkeep r r')).
      by rewrite IH.
    + injection Hupd as <- <-.
      rewrite filter_cons_False by (by rewrite Hp). done.
Qed.

Lemma update_rows_refused rows r :
  r ∈ rows → p r = true → f r = None → update_rows p f rows = None.
Proof.
  intros Hr Hp Hf.
  destruct (update_rows p f rows) as [[rows' ret]|] eqn:Hupd; [|done].
  apply update_rows_Forall2 in Hupd.
  apply list_elem_of_lookup in Hr as [i Hi].
  destruct (Forall2_lookup_l _ _ _ _ _ Hupd Hi) as (r' & _ & Hr').
  rewrite Hp in Hr'. congruence.
Qed.
End update_rows_more.

Lemma filter_app_fresh {A} (P : A → Prop) `{∀ x, Decision (P x)}
    (l : list A) (x : A) :
  Forall (λ y, ¬ P y) l → P x → filter P (l ++ [x])%list = [x].
Proof.
  intros Hl Hx. rewrite filter_app.
  rewrite (filter_cons_True P x []) by done.
  induction Hl as [|y l Hy _ IH]; [done|].
  by rewrite filter_cons_False.
Qed.

Section snippets.
Context `{Runtime}.

Lemma insert_codeSnippet_Some env data shareToken st r st' :
  insert_codeSnippet env data shareToken st = Some (r, st') →
  CodeSnippet.shareToken r = shareToken
  ∧ CodeSnippet.id r = db_uuid env
  ∧ (db_uuid env ∉ CodeSnippet.id <$> codeSnippets st)
  ∧ (shareToken ∉ CodeSnippet.shareToken <$> codeSnippets st)
  ∧ st' = {| codeSnippets := codeSnippets st ++ [r];
             snippetMessages := snippetMessages st;
             codingChallenges := codingChallenges st;
             challengeSubmissions := challengeSubmissions st;
             userPracticeStats := userPracticeStats st |}.
Proof.
  unfold insert_codeSnippet. intros Hins.
  destruct (uuid_column _) as [ownerId|]; simpl in Hins; [|done].
  case_bool_decide as Hid; [done|].
  case_bool_decide as Htok; [done|].
  injection Hins as <- <-. by split_and!.
Qed.

(** What the creation handler can do: refuse and leave the store, or store
    the row it answers with. *)
Lemma post_snippets_cases env body st :
  (∃ e, post_snippets env body st = (status_json 400 (BThrown e), st))
  ∨ (∃ data r st',
       insertCodeSnippetSchema body = Some data
       ∧ insert_codeSnippet env data (nanoid env 12) st = Some (r, st')
       ∧ post_snippets env body st = (json_ (BSnippet r), st')).
Proof.
  unfold post_snippets, try_catch, mbind, Handler_bind, orThrow, statement.
  destruct (insertCodeSnippetSchema body) as [data|]; simpl; [|by left; eexists].
  destruct (insert_codeSnippet env data (nanoid env 12) st) as [[r st']|] eqn:Hins;
    simpl; [|by left; eexists].
  right. by exists data, r, st'.
Qed.

(** X1. A snippet that was created (the creation was answered 200 with the
    row [r]) is found again: a fetch by the share token of [r], from the
    store the creation left, is answered 200 with [r] itself. *)
Theorem post_snippets_then_get env body st r st' :
  post_snippets env body st = (json_ (BSnippet r), st') →
  get_snippet (CodeSnippet.shareToken r) st' = (json_ (BSnippet r), st').
Proof.
  intros Hpost.
  destruct (post_snippets_cases env body st)
    as [[e He]|(data & r0 & st0 & _ & Hins & Hres)];
    [by rewrite He in Hpost|].
  rewrite Hres in Hpost. injection Hpost as -> ->.
  apply insert_codeSnippet_Some in Hins as (Htok & _ & _ & Hfresh & ->).
  unfold get_snippet, try_catch, mbind, Handler_bind, statement. simpl.
  rewrite filter_app_fresh; [done| |by apply eq_text_true].
  apply Forall_forall. intros r' Hr' Heq. apply eq_text_true in Heq.
  apply Hfresh. rewrite <- Htok, <- Heq. by apply list_elem_of_fmap_2.
Qed.
End snippets.

(** Creating a snippet in [snippet_store] and fetching it by its token. *)
Lemma post_snippets_then_get_witness :
  get_snippet "xxxxxxxxxxxx" created_store
  = (json_ (BSnippet created_snippet), created_store).
Proof.
  apply (post_snippets_then_get (H := example_runtime) (example_env 0)
           (JObj {[ "title" := JStr "T" ]}) snippet_store
           created_snippet created_store).
  vm_compute. reflexivity.
Defined.

Lemma Forall2_fmap_eq {A B} (g : A → B) (l l' : list A) :
  Forall2 (λ r r', g r' = g r) l l' → g <$> l' = g <$> l.
Proof. induction 1 as [|r r' l l' Hr _ IH]; [done|]. csimpl. by rewrite Hr, IH. Qed.

Section snippets_update.
Context `{Runtime}.

(** What the PATCH handler can do. *)
Lemma patch_snippet_cases env shareToken body st :
  match destructure body with
  | None =>
      patch_snippet env shareToken body st
      = (status_json 500 (BError "Internal server error"), st)
  | Some o =>
      match update_rows (λ r, eq_text (CodeSnippet.shareToken r) shareToken)
                        (apply_set (patch_set env o)) (codeSnippets st) with
      | None =>
          patch_snippet env shareToken body st
          = (status_json 500 (BError "Internal server error"), st)
      | Some (rows, returning) =>
          patch_snippet env shareToken body st
          = (match returning with
             | [] => status_json 404 (BError "Snippet not found")
             | snippet :: _ => json_ (BSnippet snippet)
             end,
             {| codeSnippets := rows;
                snippetMessages := snippetMessages st;
                codingChallenges := codingChallenges st;
                challengeSubmissions := challengeSubmissions st;
                userPracticeStats := userPracticeStats st |})
      end
  end.
Proof.
  unfold patch_snippet, try_catch, mbind, Handler_bind, orThrow, statement,
    update_codeSnippets, patch_set.
  destruct (destructure body) as [o|]; simpl; [|done].
  destruct (update_rows _ _ _) as [[rows [|snippet returning]]|]; by simpl.
Qed.

Lemma apply_set_token shareToken s r r' :
  apply_set s r = Some r' →
  eq_text (CodeSnippet.shareToken r') shareToken
  = eq_text (CodeSnippet.shareToken r) shareToken.
Proof.
  intros Hset. apply apply_set_fixed in Hset as (_&_&_&_&_&_&_&Htok&_).
  by rewrite Htok.
Qed.

(** X2. The primary key and the unique share token of [codeSnippets] are
    kept by both writers of the table: whatever the request, if ids and
    share tokens are pairwise distinct before a creation or a PATCH, they are
    afterwards. *)
Theorem snippets_unique_preserved env shareToken body st :
  snippets_unique st →
  snippets_unique (post_snippets env body st).2
  ∧ snippets_unique (patch_snippet env shareToken body st).2.
Proof.
  intros [Hid Htok]. split.
  - destruct (post_snippets_cases env body st)
      as [[e ->]|(data & r & st' & _ & Hins & ->)]; [done|].
    apply insert_codeSnippet_Some in Hins as (Hrt & Hri & Hfid & Hftok & ->).
    unfold snippets_unique. simpl. rewrite !fmap_app. simpl. split.
    + apply NoDup_app. split_and!; [done| |apply NoDup_singleton].
      intros x Hx ->%list_elem_of_singleton. apply Hfid. by rewrite <- Hri.
    + apply NoDup_app. split_and!; [done| |apply NoDup_singleton].
      intros x Hx ->%list_elem_of_singleton. apply Hftok. by rewrite <- Hrt.
  - pose proof (patch_snippet_cases env shareToken body st) as Hcases.
    destruct (destructure body) as [o|]; [|by rewrite Hcases].
    destruct (update_rows _ _ _) as [[rows returning]|] eqn:Hupd;
      [|by rewrite Hcases].
    rewrite Hcases. unfold snippets_unique. simpl.
    apply update_rows_Forall2 in Hupd.
    assert (Hfixed : Forall2 patch_fixed (codeSnippets st) rows).
    { eapply Forall2_impl; [exact Hupd|]. intros r r' Hr. simpl in Hr.
      destruct (eq_text _ _); [by eapply apply_set_fixed|].
      subst r'. by repeat split. }
    rewrite (Forall2_fmap_eq CodeSnippet.id (codeSnippets st) rows),
            (Forall2_fmap_eq CodeSnippet.shareToken (codeSnippets st) rows).
    + done.
    + eapply Forall2_impl; [exact Hfixed|]. by intros r r' (_&_&_&_&_&_&_&?&_).
    + eapply Forall2_impl; [exact Hfixed|]. by intros r r' (?&_).
Qed.

(** X3. A PATCH that is answered 200 is a partial update of a stored row
    with the requested token: the answer is the updated row, which is in
    the table afterwards; each of [content], [description] and [language]
    is kept when its key is absent from the body, set to NULL when the body
    gives null, and set to the string the body gives; [title] is kept when
    absent and set to the string given; [updatedAt] is the time of the
    request; no other field differs. *)
Theorem patch_snippet_partial_update env shareToken o st :
  status (patch_snippet env shareToken (JObj o) st).1 = 200%nat →
  ∃ r r',
    body (patch_snippet env shareToken (JObj o) st).1 = BSnippet r'
    ∧ r ∈ codeSnippets st
    ∧ CodeSnippet.shareToken r = shareToken
    ∧ r' ∈ codeSnippets (patch_snippet env shareToken (JObj o) st).2
    ∧ patched (o !! "content") (CodeSnippet.content r) (CodeSnippet.content r')
    ∧ patched (o !! "description") (CodeSnippet.description r)
              (CodeSnippet.description r')
    ∧ patched (o !! "language") (CodeSnippet.language r) (CodeSnippet.language r')
    ∧ (o !! "title" = None → CodeSnippet.title r' = CodeSnippet.title r)
    ∧ (∀ s, o !! "title" = Some (JStr s) → CodeSnippet.title r' = s)
    ∧ CodeSnippet.updatedAt r' = now env
    ∧ patch_fixed r r'.
Proof.
  pose proof (patch_snippet_cases env shareToken (JObj o) st) as Hcases.
  simpl in Hcases.
  destruct (update_rows _ _ _) as [[rows returning]|] eqn:Hupd;
    rewrite Hcases; [|done].
  destruct returning as [|r' returning]; [done|]. intros _. simpl.
  pose proof (update_rows_returning _ _ _ _ _ Hupd) as Hret.
  apply Forall2_cons_inv_r in Hret as (r & matching & Hset & _ & Hsel).
  assert (Hr : r ∈ filter
                     (λ r, eq_text (CodeSnippet.shareToken r) shareToken = true)
                     (codeSnippets st)) by (rewrite Hsel; left).
  apply list_elem_of_filter in Hr as [Hrtok%eq_text_true Hrin].
  assert (Hr' : r' ∈ rows).
  { apply (update_rows_filter _ _ _ _ _
             (λ r r', apply_set_token shareToken _ r r')) in Hupd.
    eapply (list_elem_of_filter _ rows r'). rewrite Hupd. left. }
  exists r, r'. split_and!; try done; try by eapply apply_set_fixed.
  all: unfold apply_set, patch_set in Hset; simpl in Hset;
    destruct (default (Some _) _) as [t|] eqn:Ht; simpl in Hset; [|done];
    injection Hset as <-; simpl.
  - unfold patched. split_and!; [by intros ->|by intros ->|by intros s ->].
  - unfold patched. split_and!; [by intros ->|by intros ->|by intros s ->].
  - unfold patched. split_and!; [by intros ->|by intros ->|by intros s ->].
  - intros Hnone. rewrite Hnone in Ht. simpl in Ht. congruence.
  - intros s Hs. rewrite Hs in Ht. simpl in Ht. congruence.
  - done.
Qed.

(** X4. A PATCH whose body gives null for [title], addressed to the token of
    a stored snippet, is answered 500 and changes nothing: the store
    refuses NULL in the column, which is declared not null. *)
Theorem patch_snippet_null_title env shareToken body o st r :
  destructure body = Some o →
  o !! "title" = Some JNull →
  r ∈ codeSnippets st →
  CodeSnippet.shareToken r = shareToken →
  patch_snippet env shareToken body st
  = (status_json 500 (BError "Internal server error"), st).
Proof.
  intros Hbody Htitle Hr Htok.
  pose proof (patch_snippet_cases env shareToken body st) as Hcases.
  rewrite Hbody in Hcases.
  rewrite (update_rows_refused _ _ _ r) in Hcases; try done.
  - by apply eq_text_true.
  - unfold apply_set, patch_set. simpl. by rewrite Htitle.
Qed.

(** X5. Unless it is answered 500, a PATCH answers what a fetch of the same
    token answers right after it: the updated row, or the same 404. *)
Theorem patch_snippet_then_get env shareToken body st :
  status (patch_snippet env shareToken body st).1 ≠ 500%nat →
  get_snippet shareToken (patch_snippet env shareToken body st).2
  = patch_snippet env shareToken body st.
Proof.
  pose proof (patch_snippet_cases env shareToken body st) as Hcases.
  destruct (destructure body) as [o|]; [|by rewrite Hcases].
  destruct (update_rows _ _ _) as [[rows returning]|] eqn:Hupd;
    rewrite Hcases; [|done].
  intros _. simpl.
  apply (update_rows_filter _ _ _ _ _
           (λ r r', apply_set_token shareToken _ r r')) in Hupd.
  unfold get_snippet, try_catch, mbind, Handler_bind, statement. simpl.
  rewrite Hupd. by destruct returning.
Qed.

(** X6. A creation whose generated id or generated share token is already
    in the table is answered 400 and writes nothing, whatever the payload:
    no stored snippet is replaced. *)
Theorem post_snippets_collision env body st :
  db_uuid env ∈ CodeSnippet.id <$> codeSnippets st
  ∨ nanoid env 12 ∈ CodeSnippet.shareToken <$> codeSnippets st →
  ∃ e, post_snippets env body st = (status_json 400 (BThrown e), st).
Proof.
  intros Hcollide.
  destruct (post_snippets_cases env body st)
    as [Hrefused|(data & r & st' & _ & Hins & _)]; [done|].
  apply insert_codeSnippet_Some in Hins as (_ & _ & Hid & Htok & _).
  by destruct Hcollide.
Qed.
End snippets_update.

Lemma snippets_unique_preserved_witness :
  snippets_unique
    (post_snippets (H := example_runtime) (example_env 0)
       (JObj {[ "title" := JStr "T" ]}) snippet_store).2
  ∧ snippets_unique
      (patch_snippet (H := example_runtime) (example_env 0) "abcdefghijkl"
         (JObj {[ "title" := JStr "New" ]}) snippet_store).2.
Proof.
  destruct (snippets_unique_preserved (H := example_runtime) (example_env 0)
              "abcdefghijkl" (JObj {[ "title" := JStr "T" ]}) snippet_store)
    as [Hpost _]; [split; by_decide|].
  destruct (snippets_unique_preserved (H := example_runtime) (example_env 0)
              "abcdefghijkl" (JObj {[ "title" := JStr "New" ]}) snippet_store)
    as [_ Hpatch]; [split; by_decide|].
  by split.
Defined.

(** A PATCH of [example_snippet] with a new title and null content. *)
Lemma patch_snippet_partial_update_witness :
  ∃ r', body (patch_snippet (H := example_runtime) (example_env 0)
                "abcdefghijkl"
                (JObj {[ "title" := JStr "New"; "content" := JNull ]})
                snippet_store).1 = BSnippet r'
        ∧ CodeSnippet.title r' = "New"
        ∧ CodeSnippet.content r' = None
        ∧ CodeSnippet.language r' = Some "javascript".
Proof.
  destruct (patch_snippet_partial_update (H := example_runtime) (example_env 0)
              "abcdefghijkl"
              ({[ "title" := JStr "New"; "content" := JNull ]} : gmap string json)
              snippet_store)
    as (r & r' & Hbody & Hr & _ & _ & Hcontent & _ & Hlanguage & _ & Htitle & _);
    [vm_compute; reflexivity|].
  apply list_elem_of_singleton in Hr as ->.
  exists r'. split_and!.
  - exact Hbody.
  - apply Htitle. vm_compute. reflexivity.
  - destruct Hcontent as (_ & Hnull & _). apply Hnull. vm_compute. reflexivity.
  - destruct Hlanguage as (Hkeep & _). rewrite Hkeep; [reflexivity|].
    vm_compute. reflexivity.
Defined.

Lemma patch_snippet_null_title_witness :
  patch_snippet (H := example_runtime) (example_env 0) "abcdefghijkl"
    (JObj {[ "title" := JNull ]}) snippet_store
  = (status_json 500 (BError "Internal server error"), snippet_store).
Proof.
  apply (patch_snippet_null_title (H := example_runtime) (example_env 0)
           "abcdefghijkl" (JObj {[ "title" := JNull ]}) {[ "title" := JNull ]}
           snippet_store example_snippet).
  - reflexivity.
  - vm_compute. reflexivity.
  - left.
  - reflexivity.
Defined.

Lemma patch_snippet_then_get_witness :
  get_snippet "abcdefghijkl"
    (patch_snippet (H := example_runtime) (example_env 0) "abcdefghijkl"
       (JObj {[ "title" := JStr "New" ]}) snippet_store).2
  = patch_snippet (H := example_runtime) (example_env 0) "abcdefghijkl"
      (JObj {[ "title" := JStr "New" ]}) snippet_store.
Proof.
  apply (patch_snippet_then_get (H := example_runtime)).
  vm_compute. discriminate.
Defined.

(** A second creation that draws the token already stored. *)
Lemma post_snippets_collision_witness :
  ∃ e, post_snippets (H := example_runtime) (example_env 1)
         (JObj {[ "title" := JStr "T" ]}) created_store
       = (status_json 400 (BThrown e), created_store).
Proof.
  apply (post_snippets_collision (H := example_runtime)).
  right. by_decide.
Defined.

(** ** Submissions: what is stored, and when *)

Section submit_more.
Context `{Runtime}.

(** The paths of the submit handler. *)
Lemma post_submit_cases env challengeId body st :
  post_submit env challengeId body st
  = match insertChallengeSubmissionSchema (submission_payload challengeId body) with
    | None => (status_json 400 (BThrown ZodError), st)
    | Some data =>
        match submit_statement env data st with
        | None => (status_json 400 (BThrown QueryError), st)
        | Some (submission, st1) =>
            match known_user data with
            | None => (json_ (BSubmission submission), st1)
            | Some userId =>
                match upsert_userPracticeStats env userId 100 st1 with
                | Some (_, st2) => (json_ (BSubmission submission), st2)
                | None => (status_json 400 (BThrown QueryError), st1)
                end
            end
        end
    end.
Proof.
  unfold post_submit, try_catch, mbind, Handler_bind, orThrow, statement,
    submission_payload, submit_statement.
  generalize (insertChallengeSubmissionSchema
                (JObj (<["challengeId" := JStr challengeId]> (spread body)))).
  intros [data|]; simpl; [|done].
  destruct (insert_challengeSubmission _ _ _ _ _ _ _ _ _) as [[submission st1]|];
    simpl; [|done].
  destruct (known_user data) as [userId|]; simpl; [|done].
  by destruct (upsert_userPracticeStats env userId 100 st1) as [[[] st2]|].
Qed.

Lemma insert_challengeSubmission_Some env data score rank testResults feedback
    strengths improvements st s st1 :
  insert_challengeSubmission env data score rank testResults feedback
    strengths improvements st = Some (s, st1) →
  uuid_in (sub_challengeId data) = Some (ChallengeSubmission.challengeId s)
  ∧ ChallengeSubmission.challengeId s ∈ CodingChallenge.id <$> codingChallenges st
  ∧ ChallengeSubmission.id s = db_uuid env
  ∧ (db_uuid env ∉ ChallengeSubmission.id <$> challengeSubmissions st)
  ∧ ChallengeSubmission.score s = score
  ∧ ChallengeSubmission.rank s = Some rank
  ∧ ChallengeSubmission.feedback s = Some feedback
  ∧ ChallengeSubmission.code s = sub_code data
  ∧ ChallengeSubmission.submittedAt s = db_now env
  ∧ st1 = {| codeSnippets := codeSnippets st;
             snippetMessages := snippetMessages st;
             codingChallenges := codingChallenges st;
             challengeSubmissions := challengeSubmissions st ++ [s];
             userPracticeStats := userPracticeStats st |}.
Proof.
  unfold insert_challengeSubmission. intros Hins.
  destruct (uuid_in (sub_challengeId data)) as [c|]; simpl in Hins; [|done].
  destruct (uuid_column _) as [userId|]; simpl in Hins; [|done].
  destruct (int4_column (or_default None _)) as [ms|]; simpl in Hins; [|done].
  destruct (int4_column (or_default (Some 0) _)) as [hints|]; simpl in Hins; [|done].
  destruct (negb (int4_ok score)); [done|].
  case_bool_decide as Hid; [done|].
  case_bool_decide as Hfk; [|done].
  injection Hins as <- <-. by split_and!.
Qed.

Lemma submission_payload_challengeId challengeId body data :
  insertChallengeSubmissionSchema (submission_payload challengeId body)
  = Some data →
  sub_challengeId data = challengeId.
Proof.
  unfold submission_payload, insertChallengeSubmissionSchema.
  rewrite lookup_insert_eq. simpl. intros Hdata.
  destruct (zod_uuid challengeId); simpl in Hdata; [|done].
  repeat (match type of Hdata with
          | context [mbind _ ?m] => destruct m; simpl in Hdata; [|done]
          end).
  by injection Hdata as <-.
Qed.

Lemma upsert_userPracticeStats_core env userId score st st' :
  upsert_userPracticeStats env userId score st = Some ((), st') →
  codeSnippets st' = codeSnippets st
  ∧ snippetMessages st' = snippetMessages st
  ∧ codingChallenges st' = codingChallenges st
  ∧ challengeSubmissions st' = challengeSubmissions st.
Proof.
  unfold upsert_userPracticeStats. intros Hup.
  destruct (uuid_in userId) as [u|]; simpl in Hup; [|done].
  destruct (negb (int4_ok score)); [done|].
  destruct (bool_decide _).
  - destruct (update_rows _ _ _) as [[rows ret]|]; simpl in Hup; [|done].
    by injection Hup as <-.
  - by injection Hup as <-.
Qed.

(** X7. A submission that is answered 200 is stored with the fixed grading:
    the answer is the row appended to [challengeSubmissions]; its score is
    100, its rank "A+" and its feedback "Great work!"; its challenge is the
    stored challenge the path names, its code the payload's; the snippet,
    message and challenge tables are untouched. *)
Theorem post_submit_stored_grading env challengeId body st :
  status (post_submit env challengeId body st).1 = 200%nat →
  ∃ data s,
    insertChallengeSubmissionSchema (submission_payload challengeId body)
    = Some data
    ∧ (post_submit env challengeId body st).1 = json_ (BSubmission s)
    ∧ challengeSubmissions (post_submit env challengeId body st).2
      = (challengeSubmissions st ++ [s])%list
    ∧ uuid_in challengeId = Some (ChallengeSubmission.challengeId s)
    ∧ ChallengeSubmission.challengeId s ∈ CodingChallenge.id <$> codingChallenges st
    ∧ ChallengeSubmission.score s = 100
    ∧ ChallengeSubmission.rank s = Some "A+"
    ∧ ChallengeSubmission.feedback s = Some "Great work!"
    ∧ ChallengeSubmission.code s = sub_code data
    ∧ codeSnippets (post_submit env challengeId body st).2 = codeSnippets st
    ∧ snippetMessages (post_submit env challengeId body st).2 = snippetMessages st
    ∧ codingChallenges (post_submit env challengeId body st).2 = codingChallenges st.
Proof.
  rewrite post_submit_cases.
  destruct (insertChallengeSubmissionSchema _) as [data|] eqn:Hdata; [|done].
  destruct (submit_statement env data st) as [[s st1]|] eqn:Hins; [|done].
  apply submission_payload_challengeId in Hdata as Hcid.
  apply insert_challengeSubmission_Some in Hins
    as (Huuid & Hfk & _ & _ & Hscore & Hrank & Hfeedback & Hcode & _ & ->).
  rewrite Hcid in Huuid.
  destruct (known_user data) as [userId|].
  - destruct (upsert_userPracticeStats _ _ _ _) as [[[] st2]|] eqn:Hup; [|done].
    intros _. apply upsert_userPracticeStats_core in Hup as (?&?&?&?).
    exists data, s. simpl in *. by split_and!.
  - intros _. exists data, s. by split_and!.
Qed.

(** X8. A submission whose body gives no [userId], or null, never writes
    the stats table, whatever else it carries and however it is answered. *)
Theorem post_submit_anonymous env challengeId body st :
  spread body !! "userId" = None ∨ spread body !! "userId" = Some JNull →
  userPracticeStats (post_submit env challengeId body st).2
  = userPracticeStats st.
Proof.
  intros Hanon.
  destruct (post_submit_stats env challengeId body st)
    as [[Hsame _]|(data & userId & _ & Hdata & Hknown & _)]; [done|].
  exfalso. revert Hdata Hknown.
  unfold submission_payload, insertChallengeSubmissionSchema, known_user.
  rewrite lookup_insert_eq, (lookup_insert_ne _ "challengeId" "userId") by done.
  simpl. destruct (zod_uuid challengeId); simpl; [|done].
  destruct Hanon as [-> | ->]; simpl; intros Hdata;
    repeat (match type of Hdata with
            | context [mbind _ ?m] => destruct m; simpl in Hdata; [|done]
            end);
    by injection Hdata as <-.
Qed.

(** X9. A submission to a challenge that is not stored is answered 400 and
    writes nothing: neither a submission nor a stats row. *)
Theorem post_submit_unknown_challenge env challengeId body st :
  (∀ c, uuid_in challengeId = Some c →
        c ∉ CodingChallenge.id <$> codingChallenges st) →
  status (post_submit env challengeId body st).1 = 400%nat
  ∧ (post_submit env challengeId body st).2 = st.
Proof.
  intros Hunknown. rewrite post_submit_cases.
  destruct (insertChallengeSubmissionSchema _) as [data|] eqn:Hdata; [|done].
  destruct (submit_statement env data st) as [[s st1]|] eqn:Hins; [|done].
  apply submission_payload_challengeId in Hdata.
  apply insert_challengeSubmission_Some in Hins as (Huuid & Hfk & _).
  rewrite Hdata in Huuid. by destruct (Hunknown _ Huuid).
Qed.

(** X10. The submission and the stats upsert are two statements without a
    transaction: when the submission is stored and the upsert for its known
    user is refused because the user's points would leave the 32-bit
    integer range, the request is answered 400 although the submission row
    stays stored, and the stats table is as before. *)
Theorem post_submit_not_atomic env challengeId body st data userId u r s st1 :
  insertChallengeSubmissionSchema (submission_payload challengeId body)
  = Some data →
  submit_statement env data st = Some (s, st1) →
  known_user data = Some userId →
  uuid_in userId = Some u →
  r ∈ userPracticeStats st →
  UserPracticeStats.userId r = u →
  2147483647 < UserPracticeStats.totalPoints r + 100 →
  post_submit env challengeId body st
  = (status_json 400 (BThrown QueryError), st1)
  ∧ challengeSubmissions st1 = (challengeSubmissions st ++ [s])%list
  ∧ userPracticeStats st1 = userPracticeStats st.
Proof.
  intros Hdata Hins Hknown Hu Hr Hru Hfull.
  rewrite post_submit_cases, Hdata, Hins, Hknown.
  apply insert_challengeSubmission_Some in Hins as (_&_&_&_&_&_&_&_&_& ->).
  simpl. split; [|done].
  unfold upsert_userPracticeStats. rewrite Hu. simpl.
  rewrite bool_decide_eq_true_2.
  2: { rewrite <- Hru. by apply list_elem_of_fmap_2. }
  rewrite (update_rows_refused _ _ _ r); try done.
  - by apply eq_text_true.
  - unfold stats_conflict_set, int4_add, int4_ok.
    destruct (nullable_add _ 1); simpl; [|done].
    rewrite (proj2 (Z.leb_gt (UserPracticeStats.totalPoints r + 100) 2147483647))
      by lia.
    by rewrite andb_false_r.
Qed.
End submit_more.

Section submit_payload.
Context `{Runtime}.

(** X11. Whatever number the body gives as [score], the handler does what
    it does without it: the caller cannot set the stored score, the
    response or the stats through it. *)
Theorem post_submit_score_ignored env challengeId o n st :
  post_submit env challengeId (JObj (<["score" := JNum n]> o)) st
  = post_submit env challengeId (JObj (delete "score" o)) st.
Proof.
  rewrite !post_submit_cases.
  unfold submission_payload, insertChallengeSubmissionSchema. simpl.
  rewrite !lookup_insert_eq.
  rewrite !(lookup_insert_ne _ "challengeId") by done.
  rewrite lookup_insert_eq, lookup_delete_eq.
  rewrite !(lookup_insert_ne _ "score"), !(lookup_delete_ne _ "score") by done.
  simpl.
  repeat (match goal with
          | |- context [mbind _ ?m] => destruct m; simpl; [|done]
          end).
  done.
Qed.

(** X12. The challenge of a submission is the one in the path: a
    [challengeId] in the body, whatever its value, changes nothing. *)
Theorem post_submit_path_challenge env challengeId o v st :
  post_submit env challengeId (JObj (<["challengeId" := v]> o)) st
  = post_submit env challengeId (JObj o) st.
Proof.
  unfold post_submit. simpl. by rewrite insert_insert_eq.
Qed.
End submit_payload.

Section stats_invariant.
Context `{Runtime}.

(** X13. Whatever the request, a submission keeps the stats table in shape:
    user ids stay pairwise distinct (the primary key), every stored row
    stays at its place for the same user, and no user's points go down. *)
Theorem post_submit_stats_invariant env challengeId body st :
  stats_unique st →
  stats_unique (post_submit env challengeId body st).2
  ∧ ∀ i r, userPracticeStats st !! i = Some r →
      ∃ r', userPracticeStats (post_submit env challengeId body st).2 !! i
            = Some r'
            ∧ UserPracticeStats.userId r' = UserPracticeStats.userId r
            ∧ UserPracticeStats.totalPoints r ≤ UserPracticeStats.totalPoints r'.
Proof.
  intros Huniq.
  destruct (post_submit_stats env challengeId body st)
    as [[Hsame _]|(data & userId & st1 & _ & _ & Hst1 & Hup & _)].
  { unfold stats_unique. rewrite Hsame. split; [done|].
    intros i r Hi. exists r. split_and!; [done..|lia]. }
  apply upsert_userPracticeStats_spec in Hup as (u & Hu & Hup).
  rewrite Hst1 in Hup. case_bool_decide as Hrow.
  - assert (Hrows : Forall2 (λ r r',
              UserPracticeStats.userId r' = UserPracticeStats.userId r
              ∧ UserPracticeStats.totalPoints r ≤ UserPracticeStats.totalPoints r')
              (userPracticeStats st)
              (userPracticeStats (post_submit env challengeId body st).2)).
    { eapply Forall2_impl; [exact Hup|]. intros r r' Hr. simpl in Hr.
      destruct (eq_text _ _).
      - apply stats_conflict_set_spec in Hr as ((Hid & _) & _ & Hpoints & _).
        split; [done|lia].
      - subst r'. split; [done|lia]. }
    split.
    + unfold stats_unique.
      rewrite (Forall2_fmap_eq UserPracticeStats.userId (userPracticeStats st));
        [done|].
      eapply Forall2_impl; [exact Hrows|]. by intros r r' [? _].
    + intros i r Hi.
      destruct (Forall2_lookup_l _ _ _ _ _ Hrows Hi) as (r' & Hi' & Hr').
      by exists r'.
  - unfold stats_unique. rewrite Hup. split.
    + rewrite fmap_app. apply NoDup_app.
      split_and!; [done| |apply NoDup_singleton].
      by intros x Hx ->%list_elem_of_singleton.
    + intros i r Hi. exists r. rewrite lookup_app_l by (by eapply lookup_lt_Some).
      split_and!; [done..|lia].
Qed.
End stats_invariant.

(** A graded submission of [example_user] to [fresh_store]. *)
Lemma post_submit_stored_grading_witness :
  ∃ s, (post_submit (H := example_runtime) (example_env 0) example_challenge_id
          (submit_body example_user) fresh_store).1 = json_ (BSubmission s)
       ∧ ChallengeSubmission.score s = 100
       ∧ ChallengeSubmission.code s = "print(1)".
Proof.
  destruct (post_submit_stored_grading (H := example_runtime) (example_env 0)
              example_challenge_id (submit_body example_user) fresh_store)
    as (data & s & Hdata & Hres & _ & _ & _ & Hscore & _ & _ & Hcode & _);
    [vm_compute; reflexivity|].
  exists s. split_and!; [exact Hres|exact Hscore|].
  rewrite Hcode.
  assert (data = submit_data example_user) as ->; [|reflexivity].
  assert (Hd : insertChallengeSubmissionSchema (H := example_runtime)
                 (submission_payload example_challenge_id
                    (submit_body example_user))
               = Some (submit_data example_user)) by (vm_compute; reflexivity).
  rewrite Hd in Hdata. by injection Hdata as <-.
Defined.

(** A submission without a user leaves the stats of [stats_store]. *)
Lemma post_submit_anonymous_witness :
  userPracticeStats
    (post_submit (H := example_runtime) (example_env 0) example_challenge_id
       (JObj {[ "code" := JStr "print(1)"; "language" := JStr "python" ]})
       stats_store).2
  = userPracticeStats stats_store.
Proof.
  apply (post_submit_anonymous (H := example_runtime)).
  left. vm_compute. reflexivity.
Defined.

(** A submission to a challenge that [empty_store] does not have. *)
Lemma post_submit_unknown_challenge_witness :
  status (post_submit (H := example_runtime) (example_env 0) example_challenge_id
            (submit_body example_user) empty_store).1 = 400%nat
  ∧ (post_submit (H := example_runtime) (example_env 0) example_challenge_id
       (submit_body example_user) empty_store).2 = empty_store.
Proof.
  apply (post_submit_unknown_challenge (H := example_runtime)).
  intros c _. by_decide.
Defined.

(** A submission of the user whose points are at the top of the range:
    answered 400, and one submission row is stored. *)
Lemma post_submit_not_atomic_witness :
  ∃ s st1,
    post_submit (H := example_runtime) (example_env 0) example_challenge_id
      (submit_body example_user) full_stats_store
    = (status_json 400 (BThrown QueryError), st1)
    ∧ challengeSubmissions st1 = [ s ]
    ∧ userPracticeStats st1 = userPracticeStats full_stats_store.
Proof.
  destruct (submit_statement (H := example_runtime) (example_env 0)
              (submit_data example_user) full_stats_store)
    as [[s st1]|] eqn:Hins; [|by vm_compute in Hins].
  exists s, st1.
  apply (post_submit_not_atomic (H := example_runtime) (example_env 0)
           example_challenge_id (submit_body example_user) full_stats_store
           (submit_data example_user) example_user example_user
           (example_stats example_user (Some 9) 2147483600)).
  - vm_compute. reflexivity.
  - exact Hins.
  - reflexivity.
  - reflexivity.
  - left.
  - reflexivity.
  - reflexivity.
Defined.

Lemma post_submit_stats_invariant_witness :
  stats_unique
    (post_submit (H := example_runtime) (example_env 0) example_challenge_id
       (submit_body example_user) stats_store).2.
Proof.
  apply (post_submit_stats_invariant (H := example_runtime)).
  by_decide.
Defined.

(** ** Challenges: generation and lookup by id *)

Section challenges.
Context `{Runtime}.

Lemma insert_codingChallenge_Some env title description difficulty language
    testCases hints constraints st r st' :
  insert_codingChallenge env title description difficulty language testCases
    hints constraints st = Some (r, st') →
  CodingChallenge.id r = db_uuid env
  ∧ (db_uuid env ∉ CodingChallenge.id <$> codingChallenges st)
  ∧ CodingChallenge.createdAt r = db_now env
  ∧ CodingChallenge.createdBy r = None
  ∧ (language ≫= text_param) = Some (CodingChallenge.language r)
  ∧ st' = {| codeSnippets := codeSnippets st;
             snippetMessages := snippetMessages st;
             codingChallenges := codingChallenges st ++ [r];
             challengeSubmissions := challengeSubmissions st;
             userPracticeStats := userPracticeStats st |}.
Proof.
  unfold insert_codingChallenge. intros Hins.
  destruct (language ≫= text_param) as [l|]; simpl in Hins; [|done].
  case_bool_decide as Hid; [done|].
  injection Hins as <- <-. by split_and!.
Qed.

(** The paths of the generation handler. *)
Lemma post_generate_cases env body st :
  post_generate env body st
  = (status_json 500 (BError "Internal server error"), st)
  ∨ ∃ o d r,
      destructure body = Some o
      ∧ o !! "difficulty" = Some (JStr d)
      ∧ (o !! "language" ≫= text_param) = Some (CodingChallenge.language r)
      ∧ post_generate env body st
        = (json_ (BChallenge r),
           {| codeSnippets := codeSnippets st;
              snippetMessages := snippetMessages st;
              codingChallenges := codingChallenges st ++ [r];
              challengeSubmissions := challengeSubmissions st;
              userPracticeStats := userPracticeStats st |})
      ∧ CodingChallenge.id r = db_uuid env
      ∧ (db_uuid env ∉ CodingChallenge.id <$> codingChallenges st)
      ∧ CodingChallenge.difficulty r = d
      ∧ CodingChallenge.createdAt r = db_now env
      ∧ CodingChallenge.createdBy r = None.
Proof.
  unfold post_generate, try_catch, mbind, Handler_bind, orThrow, statement.
  destruct (destructure body) as [o|] eqn:Hbody; simpl; [|by left].
  destruct (o !! "difficulty") as [[| | |d| |]|] eqn:Hd; simpl; try by left.
  destruct (insert_codingChallenge _ _ _ _ _ _ _ _ _) as [[r st']|] eqn:Hins;
    simpl; [|by left].
  pose proof Hins as Hrow.
  apply insert_codingChallenge_Some in Hins
    as (Hid & Hfresh & Hat & Hby & Hlang & ->).
  right. exists o, d, r. split_and!; try done.
  unfold insert_codingChallenge in Hrow.
  destruct (o !! "language" ≫= text_param); simpl in Hrow; [|done].
  case_bool_decide; [done|]. by injection Hrow as <- _.
Qed.

(** X14. Generation writes one challenge or nothing.  Whatever the body, it
    is answered either 500, with the store unchanged, or 200 with a new
    row that carries the store's generated id and time and no creator and
    is appended to [codingChallenges], every stored row and every other
    table staying as it was.  With a language that is absent or null it is
    the former, also when the difficulty is a string: the language column
    is not null. *)
Theorem post_generate_one_row env body st :
  (post_generate env body st
   = (status_json 500 (BError "Internal server error"), st)
   ∨ ∃ r, post_generate env body st
          = (json_ (BChallenge r),
             {| codeSnippets := codeSnippets st;
                snippetMessages := snippetMessages st;
                codingChallenges := codingChallenges st ++ [r];
                challengeSubmissions := challengeSubmissions st;
                userPracticeStats := userPracticeStats st |})
          ∧ CodingChallenge.id r = db_uuid env
          ∧ (db_uuid env ∉ CodingChallenge.id <$> codingChallenges st)
          ∧ CodingChallenge.createdAt r = db_now env
          ∧ CodingChallenge.createdBy r = None)
  ∧ (∀ o, destructure body = Some o →
          o !! "language" = None ∨ o !! "language" = Some JNull →
          post_generate env body st
          = (status_json 500 (BError "Internal server error"), st)).
Proof.
  destruct (post_generate_cases env body st)
    as [H500|(o & d & r & Hbody & _ & Hlang & Hres & Hid & Hfresh & _ & Hat & Hby)].
  - split; [by left|done].
  - split; [right; by exists r|].
    intros o' Hbody' Hl. assert (o' = o) as -> by congruence.
    by destruct Hl as [Hl|Hl]; rewrite Hl in Hlang.
Qed.

(** X15. The three answers of the lookup by id, none of which writes: 500
    when the store cannot read the id as a uuid, 404 when no challenge has
    it, and otherwise 200 with a stored challenge of that id, the very one
    when ids are pairwise distinct (the primary key). *)
Theorem get_challenge_by_id id st :
  (get_challenge id st).2 = st
  ∧ (uuid_in id = None →
     (get_challenge id st).1
     = status_json 500 (BError "Internal server error"))
  ∧ (∀ u, uuid_in id = Some u →
       (u ∉ CodingChallenge.id <$> codingChallenges st →
        (get_challenge id st).1
        = status_json 404 (BError "Challenge not found"))
       ∧ (∀ r, r ∈ codingChallenges st → CodingChallenge.id r = u →
            ∃ r', (get_challenge id st).1 = json_ (BChallenge r')
                  ∧ r' ∈ codingChallenges st
                  ∧ CodingChallenge.id r' = u
                  ∧ (NoDup (CodingChallenge.id <$> codingChallenges st) →
                     r' = r))).
Proof.
  unfold get_challenge, try_catch, mbind, Tx_bind, statement.
  destruct (uuid_in id) as [u|]; simpl; [|by split_and!].
  set (P := λ r, eq_text (CodingChallenge.id r) u = true).
  assert (Hin : ∀ r, r ∈ filter P (codingChallenges st) ↔
                     r ∈ codingChallenges st ∧ CodingChallenge.id r = u).
  { intros r. rewrite list_elem_of_filter. unfold P. rewrite eq_text_true. tauto. }
  destruct (filter P (codingChallenges st)) as [|r' rest] eqn:Hsel; simpl.
  - split_and!; [done..|]. intros u' [= <-]. split; [done|].
    intros r Hr Hu. exfalso. eapply elem_of_nil, Hin. eauto.
  - assert (Hr' : r' ∈ codingChallenges st ∧ CodingChallenge.id r' = u).
    { apply Hin. left. }
    destruct Hr' as [Hr'in Hr'u].
    split_and!; [done..|]. intros u' [= <-]. split.
    + intros Hno. exfalso. apply Hno. rewrite <- Hr'u.
      by apply list_elem_of_fmap_2.
    + intros r Hr Hru. exists r'. split_and!; try done.
      intros Hnd. eapply NoDup_fmap_eq; eauto. congruence.
Qed.

(** X16. A challenge that was generated (answered 200 with the row [r]) is
    found again by its id, when the store reads the id it generated as
    itself: the lookup, from the store the generation left, is answered
    200 with [r]. *)
Theorem post_generate_then_get env body st r st' :
  post_generate env body st = (json_ (BChallenge r), st') →
  uuid_in (db_uuid env) = Some (db_uuid env) →
  get_challenge (CodingChallenge.id r) st' = (json_ (BChallenge r), st').
Proof.
  intros Hgen Hcanon.
  destruct (post_generate_cases env body st)
    as [H500|(o & d & r0 & _ & _ & _ & Hres & Hid & Hfresh & _)].
  { by rewrite H500 in Hgen. }
  rewrite Hres in Hgen. injection Hgen as -> <-.
  unfold get_challenge, try_catch, mbind, Tx_bind, statement.
  rewrite Hid, Hcanon. simpl.
  rewrite filter_app_fresh; [done| |by apply eq_text_true].
  apply Forall_forall. intros r' Hr' Heq%eq_text_true.
  apply Hfresh. rewrite <- Heq. by apply list_elem_of_fmap_2.
Qed.
End challenges.

(** A difficulty without a language stores nothing. *)
Lemma post_generate_one_row_witness :
  post_generate (H := example_runtime) (example_env 0)
    (JObj {[ "difficulty" := JStr "easy" ]}) generated_store
  = (status_json 500 (BError "Internal server error"), generated_store).
Proof.
  destruct (post_generate_one_row (H := example_runtime) (example_env 0)
              (JObj {[ "difficulty" := JStr "easy" ]}) generated_store)
    as [_ Hlang].
  apply (Hlang {[ "difficulty" := JStr "easy" ]}); [reflexivity|].
  left. vm_compute. reflexivity.
Defined.

(** The generated challenge is found by its id; an unknown id gives 404 and
    a text that is no uuid gives 500. *)
Lemma get_challenge_by_id_witness :
  (get_challenge (H := example_runtime) "00000000-0000-4000-8000-00000000000a"
     generated_store).1 = json_ (BChallenge generated_challenge)
  ∧ (get_challenge (H := example_runtime) example_challenge_id
       generated_store).1 = status_json 404 (BError "Challenge not found")
  ∧ (get_challenge (H := example_runtime) "42" generated_store).1
    = status_json 500 (BError "Internal server error").
Proof.
  split_and!.
  - destruct (get_challenge_by_id (H := example_runtime)
                "00000000-0000-4000-8000-00000000000a" generated_store)
      as (_ & _ & Hsome).
    destruct (Hsome _ eq_refl) as [_ Hfound].
    destruct (Hfound generated_challenge) as (r' & Hres & _ & _ & Huniq);
      [left|reflexivity|].
    rewrite Hres, (Huniq ltac:(by_decide)). reflexivity.
  - destruct (get_challenge_by_id (H := example_runtime) example_challenge_id
                generated_store) as (_ & _ & Hsome).
    destruct (Hsome _ eq_refl) as [Hnone _]. apply Hnone. by_decide.
  - destruct (get_challenge_by_id (H := example_runtime) "42" generated_store)
      as (_ & Hbad & _).
    apply Hbad. reflexivity.
Defined.

Lemma post_generate_then_get_witness :
  get_challenge (H := example_runtime) "00000000-0000-4000-8000-00000000000a"
    generated_store
  = (json_ (BChallenge generated_challenge), generated_store).
Proof.
  apply (post_generate_then_get (H := example_runtime) (example_env 0)
           (JObj {[ "difficulty" := JStr "easy"; "language" := JStr "python" ]})
           empty_store generated_challenge generated_store).
  - vm_compute. reflexivity.
  - reflexivity.
Defined.

(** ** GET /api/leaderboard *)

#[local] Instance stats_desc_totalPoints_total : Total stats_desc_totalPoints.
Proof. intros x y. apply desc_total. Qed.

#[local] Instance stats_desc_totalPoints_trans : Transitive stats_desc_totalPoints.
Proof. intros x y z. apply desc_trans. Qed.

(** X17. The leaderboard is answered 200 and never writes.  It lists stored
    stats rows, all of them when there are at most 100 and 100 otherwise,
    in descending order of total points, and no row left out has more
    points than a row listed. *)
Theorem get_leaderboard_top st :
  ∃ l, get_leaderboard st = (reply_json l, st)
       ∧ length l = (100 `min` length (userPracticeStats st))%nat
       ∧ StronglySorted stats_desc_totalPoints l
       ∧ (∀ r, r ∈ l → r ∈ userPracticeStats st)
       ∧ ∃ rest, userPracticeStats st ≡ₚ l ++ rest
                 ∧ ∀ r r', r ∈ l → r' ∈ rest →
                     UserPracticeStats.totalPoints r'
                     ≤ UserPracticeStats.totalPoints r.
Proof.
  unfold get_leaderboard, tx_try, mbind, Tx_bind, tx_statement. simpl.
  eexists. split; [reflexivity|].
  destruct (take_orderBy stats_desc_totalPoints 100 (userPracticeStats st))
    as (Hlen & Hsorted & Hsub & Hrest).
  by split_and!.
Qed.

(** ** POST /api/snippets/:snippetId/messages *)

Section messages_post.
Context `{Runtime}.

Lemma insert_snippetMessage_Some env data st m st' :
  insert_snippetMessage env data st = Some (m, st') →
  uuid_in (msg_snippetId data) = Some (SnippetMessage.snippetId m)
  ∧ SnippetMessage.snippetId m ∈ CodeSnippet.id <$> codeSnippets st
  ∧ SnippetMessage.id m = db_uuid env
  ∧ (db_uuid env ∉ SnippetMessage.id <$> snippetMessages st)
  ∧ SnippetMessage.createdAt m = Some (db_now env)
  ∧ SnippetMessage.username m = msg_username data
  ∧ SnippetMessage.messageType m = default "text" (msg_messageType data)
  ∧ st' = {| codeSnippets := codeSnippets st;
             snippetMessages := snippetMessages st ++ [m];
             codingChallenges := codingChallenges st;
             challengeSubmissions := challengeSubmissions st;
             userPracticeStats := userPracticeStats st |}.
Proof.
  unfold insert_snippetMessage. intros Hins.
  destruct (uuid_in (msg_snippetId data)) as [c|]; simpl in Hins; [|done].
  destruct (int4_column _) as [size|]; simpl in Hins; [|done].
  case_bool_decide as Hid; [done|].
  case_bool_decide as Hfk; [|done].
  injection Hins as <- <-. by split_and!.
Qed.

Lemma message_payload_snippetId snippetId o data :
  insertSnippetMessageSchema (JObj (<["snippetId" := JStr snippetId]> o))
  = Some data →
  msg_snippetId data = snippetId.
Proof.
  unfold insertSnippetMessageSchema.
  rewrite lookup_insert_eq. simpl. intros Hdata.
  destruct (zod_uuid snippetId); simpl in Hdata; [|done].
  repeat (match type of Hdata with
          | context [mbind _ ?m] => destruct m; simpl in Hdata; [|done]
          end).
  by injection Hdata as <-.
Qed.

(** The paths of the message handler. *)
Lemma post_message_cases env snippetId body st :
  (∃ e, post_message env snippetId body st = (reply_thrown 400 e, st))
  ∨ (∃ data m st',
       insertSnippetMessageSchema
         (JObj (<["snippetId" := JStr snippetId]> (spread body))) = Some data
       ∧ insert_snippetMessage env data st = Some (m, st')
       ∧ post_message env snippetId body st = (reply_json m, st')).
Proof.
  unfold post_message, tx_try, mbind, Tx_bind, tx_orThrow, tx_statement.
  generalize (insertSnippetMessageSchema
                (JObj (<["snippetId" := JStr snippetId]> (spread body)))).
  intros [data|]; simpl; [|by left; eexists].
  destruct (insert_snippetMessage env data st) as [[m st']|] eqn:Hins; simpl;
    [|by left; eexists].
  right. by exists data, m, st'.
Qed.

(** X18. A message that is answered 200 is the row appended to
    [snippetMessages]: it belongs to the stored snippet that the path
    names, carries the store's generated id and, as creation time, the
    store's clock; the other tables are untouched.  A message for a snippet
    that is not stored is answered 400 and nothing is written.  A
    [snippetId] in the body, whatever its value, changes nothing: the path
    decides. *)
Theorem post_message_stored env snippetId body st :
  (reply_status (post_message env snippetId body st).1 = 200%nat →
   ∃ m, (post_message env snippetId body st).1 = reply_json m
        ∧ (post_message env snippetId body st).2
          = {| codeSnippets := codeSnippets st;
               snippetMessages := snippetMessages st ++ [m];
               codingChallenges := codingChallenges st;
               challengeSubmissions := challengeSubmissions st;
               userPracticeStats := userPracticeStats st |}
        ∧ uuid_in snippetId = Some (SnippetMessage.snippetId m)
        ∧ SnippetMessage.snippetId m ∈ CodeSnippet.id <$> codeSnippets st
        ∧ SnippetMessage.id m = db_uuid env
        ∧ SnippetMessage.createdAt m = Some (db_now env))
  ∧ ((∀ c, uuid_in snippetId = Some c → c ∉ CodeSnippet.id <$> codeSnippets st) →
     reply_status (post_message env snippetId body st).1 = 400%nat
     ∧ (post_message env snippetId body st).2 = st)
  ∧ (∀ o v,
       post_message env snippetId (JObj (<["snippetId" := v]> o)) st
       = post_message env snippetId (JObj o) st).
Proof.
  split_and!.
  - destruct (post_message_cases env snippetId body st)
      as [[e ->]|(data & m & st' & Hdata & Hins & ->)]; [done|].
    intros _. apply message_payload_snippetId in Hdata.
    apply insert_snippetMessage_Some in Hins
      as (Huuid & Hfk & Hid & _ & Hat & _ & _ & ->).
    rewrite Hdata in Huuid. exists m. by split_and!.
  - intros Hunknown.
    destruct (post_message_cases env snippetId body st)
      as [[e ->]|(data & m & st' & Hdata & Hins & ->)]; [done|].
    apply message_payload_snippetId in Hdata.
    apply insert_snippetMessage_Some in Hins as (Huuid & Hfk & _).
    rewrite Hdata in Huuid. by destruct (Hunknown _ Huuid).
  - intros o v. unfold post_message. simpl. by rewrite insert_insert_eq.
Qed.

(** X19. A message just posted leads the list: when every message stored
    before has a creation time earlier than the store's clock at the
    posting, the list of the snippet's messages, read from the store the
    posting left, starts with the posted message. *)
Theorem post_message_then_list env snippetId body st m st' :
  post_message env snippetId body st = (reply_json m, st') →
  Forall (λ m0, ∃ t, SnippetMessage.createdAt m0 = Some t ∧ t < db_now env)
         (snippetMessages st) →
  ∃ rest, get_messages snippetId st' = (json_ (BMessages (m :: rest)), st').
Proof.
  intros Hpost Hearlier.
  destruct (post_message_cases env snippetId body st)
    as [[e He]|(data & m0 & st0 & Hdata & Hins & Hres)];
    [by rewrite He in Hpost|].
  rewrite Hres in Hpost. injection Hpost as -> ->.
  apply message_payload_snippetId in Hdata.
  apply insert_snippetMessage_Some in Hins
    as (Huuid & _ & _ & _ & Hat & _ & _ & ->).
  rewrite Hdata in Huuid.
  unfold get_messages, try_catch, mbind, Handler_bind, statement.
  rewrite Huuid. simpl.
  set (P := λ r, eq_text (SnippetMessage.snippetId r) (SnippetMessage.snippetId m) = true).
  rewrite filter_app, (filter_cons_True P m []), filter_nil
    by (by apply eq_text_true).
  set (old := filter P (snippetMessages st)).
  assert (Hold : ∀ x, x ∈ old → ¬ messages_desc_createdAt x m).
  { intros x Hx. apply list_elem_of_filter in Hx as [_ Hx].
    rewrite Forall_forall in Hearlier.
    destruct (Hearlier x Hx) as (t & Ht & Hlt).
    unfold messages_desc_createdAt. rewrite Ht, Hat. simpl. lia. }
  pose proof (merge_sort_Permutation messages_desc_createdAt (old ++ [m])) as Hperm.
  pose proof (StronglySorted_merge_sort messages_desc_createdAt (old ++ [m]))
    as Hsorted.
  unfold orderBy.
  destruct (merge_sort messages_desc_createdAt (old ++ [m])) as [|h tl] eqn:Hsort.
  { apply Permutation_nil_l in Hperm. by destruct old. }
  assert (h = m) as ->.
  { assert (Hh : h ∈ (old ++ [m])%list) by (rewrite <- Hperm; left).
    apply elem_of_app in Hh as [Hh|Hh]; [|by apply list_elem_of_singleton in Hh].
    assert (Hm : m ∈ h :: tl) by (rewrite Hperm; apply elem_of_app; right; left).
    apply elem_of_cons in Hm as [Hm|Hm]; [done|].
    apply StronglySorted_cons in Hsorted as [Hall _].
    rewrite Forall_forall in Hall. by destruct (Hold h Hh (Hall m Hm)). }
  by exists (take 99 tl).
Qed.

(** X20. Messages stay dated.  When every stored message has a creation
    time, every stored message has one after a posting, whatever the
    request; and then the creation times of a listed snippet's messages
    are all present and in descending order as numbers. *)
Theorem messages_dated_kept env snippetId body st :
  messages_dated st →
  messages_dated (post_message env snippetId body st).2
  ∧ ∀ l, (get_messages snippetId st).1 = json_ (BMessages l) →
      ∃ ts, SnippetMessage.createdAt <$> l = Some <$> ts
            ∧ StronglySorted desc ts.
Proof.
  intros Hdated. split.
  - destruct (post_message_cases env snippetId body st)
      as [[e ->]|(data & m & st' & _ & Hins & ->)]; [done|].
    apply insert_snippetMessage_Some in Hins as (_&_&_&_& Hat &_&_& ->).
    unfold messages_dated. simpl. apply Forall_app. split; [done|].
    constructor; [by rewrite Hat|constructor].
  - unfold get_messages, try_catch, mbind, Handler_bind, statement.
    destruct (uuid_in snippetId) as [sid|]; simpl; [|done].
    intros l [= <-].
    destruct (take_orderBy messages_desc_createdAt 100
                (filter (λ r, eq_text (SnippetMessage.snippetId r) sid = true)
                        (snippetMessages st)))
      as (_ & Hsorted & Hsub & _).
    revert Hsorted Hsub.
    generalize (take 100 (orderBy messages_desc_createdAt
                  (filter (λ r, eq_text (SnippetMessage.snippetId r) sid = true)
                          (snippetMessages st)))).
    intros l Hsorted Hsub.
    assert (Hl : Forall (λ m, is_Some (SnippetMessage.createdAt m)) l).
    { apply Forall_forall. intros m Hm.
      apply Hsub, list_elem_of_filter in Hm as [_ Hm].
      unfold messages_dated in Hdated. rewrite Forall_forall in Hdated. eauto. }
    clear Hsub. induction l as [|m l IH].
    + exists []. split; [done|constructor].
    + apply Forall_cons in Hl as [[t Ht] Hl].
      apply StronglySorted_cons in Hsorted as [Hall Hsorted].
      destruct (IH Hsorted Hl) as (ts & Hts & Hsts).
      exists (t :: ts). split; [csimpl; by rewrite Ht, Hts|].
      constructor; [done|].
      apply Forall_forall. intros t' Ht'.
      assert (Hin : Some t' ∈ SnippetMessage.createdAt <$> l).
      { rewrite Hts. by apply list_elem_of_fmap_2. }
      apply list_elem_of_fmap in Hin as (m' & Hm't & Hm').
      rewrite Forall_forall in Hall. specialize (Hall m' Hm').
      unfold messages_desc_createdAt in Hall. by rewrite Ht, <- Hm't in Hall.
Qed.
End messages_post.

(** A message posted to the stored snippet, and one to a snippet that
    [empty_store] does not have. *)
Lemma post_message_stored_witness :
  (∃ m, (post_message (H := example_runtime) (example_env 0) example_snippet_id
           message_body snippet_store).1 = reply_json m
        ∧ SnippetMessage.createdAt m = Some 2000)
  ∧ reply_status (post_message (H := example_runtime) (example_env 0)
                    example_snippet_id message_body empty_store).1 = 400%nat.
Proof.
  split.
  - destruct (post_message_stored (H := example_runtime) (example_env 0)
                example_snippet_id message_body snippet_store) as (Hok & _).
    destruct Hok as (m & Hres & _ & _ & _ & _ & Hat); [vm_compute; reflexivity|].
    exists m. split; [exact Hres|exact Hat].
  - destruct (post_message_stored (H := example_runtime) (example_env 0)
                example_snippet_id message_body empty_store) as (_ & Hfk & _).
    apply Hfk. intros c _. by_decide.
Defined.

(** A message posted to the snippet of [tie_store] at time 2000, after two
    messages of time 5, leads the list. *)
Lemma post_message_then_list_witness :
  ∃ rest, get_messages (H := example_runtime) example_snippet_id posted_store
          = (json_ (BMessages (posted_message :: rest)), posted_store).
Proof.
  apply (post_message_then_list (H := example_runtime) (example_env 0)
           example_snippet_id message_body tie_store).
  - vm_compute. reflexivity.
  - repeat constructor; eexists; (split; [reflexivity|reflexivity]).
Defined.

Lemma messages_dated_kept_witness :
  messages_dated
    (post_message (H := example_runtime) (example_env 0) example_snippet_id
       message_body tie_store).2.
Proof.
  apply (messages_dated_kept (H := example_runtime)).
  repeat constructor; by eexists.
Defined.

(** ** Project handlers *)

#[local] Instance projects_desc_updatedAt_total : Total projects_desc_updatedAt.
Proof. intros x y. apply desc_total. Qed.

#[local] Instance projects_desc_updatedAt_trans : Transitive projects_desc_updatedAt.
Proof. intros x y z. apply desc_trans. Qed.

Section projects.
Context `{Runtime}.

(** X21. The project list never writes.  Without an owner id in the query,
    or with an empty one, it is answered 400 "ownerId is required" and no
    query is made.  With an owner id that the store cannot read as a uuid
    it is answered 500.  Otherwise it is answered 200 with all the stored
    projects of that owner and no other, each once, in descending order of
    update time. *)
Theorem get_projects_of_owner ownerId db :
  (get_projects ownerId db).2 = db
  ∧ (ownerId = None ∨ ownerId = Some "" →
     (get_projects ownerId db).1 = reply_error 400 "ownerId is required")
  ∧ (∀ owner, ownerId = Some owner → owner ≠ "" → uuid_in owner = None →
       (get_projects ownerId db).1 = reply_error 500 "Internal server error")
  ∧ (∀ owner u, ownerId = Some owner → owner ≠ "" → uuid_in owner = Some u →
       ∃ l, (get_projects ownerId db).1 = reply_json l
            ∧ l ≡ₚ filter (λ r, Project.ownerId r = u) (projects db)
            ∧ StronglySorted projects_desc_updatedAt l).
Proof.
  unfold get_projects, tx_try, mbind, Tx_bind, tx_statement.
  destruct ownerId as [[|c owner]|]; simpl.
  - split_and!; try done. all: by intros; simplify_eq.
  - destruct (uuid_in (String c owner)) as [u|] eqn:Hu; simpl.
    + split_and!; try done.
      * by intros [?|?].
      * intros owner' [= <-] _. by rewrite Hu.
      * intros owner' u' [= <-] _. rewrite Hu. intros [= <-].
        eexists. split; [reflexivity|]. split.
        -- unfold orderBy. rewrite merge_sort_Permutation.
           by rewrite (list_filter_iff _ (λ r, Project.ownerId r = u))
             by (intros r; apply eq_text_true).
        -- apply StronglySorted_merge_sort; apply _.
    + split_and!; try done.
      * by intros [?|?].
      * intros owner' u' [= <-] _. by rewrite Hu.
  - split_and!; try done.
Qed.

(** X22. The file list of a project never writes.  With a project id that
    the store cannot read as a uuid it is answered 500.  Otherwise it is
    answered 200 with all the stored files of that project and no other,
    each once, in ascending order of path in the order of texts the store
    uses, provided that order compares any two texts. *)
Theorem get_project_files_by_path (collate : relation string)
    `{∀ x y, Decision (collate x y)} `{!Total collate} projectId db :
  (get_project_files collate projectId db).2 = db
  ∧ (uuid_in projectId = None →
     (get_project_files collate projectId db).1
     = reply_error 500 "Internal server error")
  ∧ (∀ p, uuid_in projectId = Some p →
       ∃ l, (get_project_files collate projectId db).1 = reply_json l
            ∧ l ≡ₚ filter (λ r, ProjectFile.projectId r = p) (projectFiles db)
            ∧ Sorted (files_asc_path collate) l).
Proof.
  unfold get_project_files, tx_try, mbind, Tx_bind, tx_statement.
  destruct (uuid_in projectId) as [p|]; simpl; [|by split_and!].
  split_and!; try done. intros p' [= <-].
  eexists. split; [reflexivity|]. split.
  - unfold orderBy. rewrite merge_sort_Permutation.
    by rewrite (list_filter_iff _ (λ r, ProjectFile.projectId r = p))
      by (intros r; apply eq_text_true).
  - apply Sorted_merge_sort. intros x y. apply (total collate).
Qed.
End projects.

#[local] Instance bytewise_total : Total bytewise.
Proof. intros x y. apply String.leb_total. Qed.

(** The two projects of [example_user], the later update first; no owner
    gives 400. *)
Lemma get_projects_of_owner_witness :
  (∃ l, (get_projects (H := example_runtime) (Some example_user)
           example_database).1 = reply_json l
        ∧ Project.name <$> l = [ "two"; "one" ])
  ∧ (get_projects (H := example_runtime) None example_database).1
    = reply_error 400 "ownerId is required".
Proof.
  destruct (get_projects_of_owner (H := example_runtime) (Some example_user)
              example_database) as (_ & _ & _ & Hlist).
  destruct (get_projects_of_owner (H := example_runtime) None example_database)
    as (_ & Hnone & _).
  split.
  - destruct (Hlist example_user example_user eq_refl ltac:(discriminate) eq_refl)
      as (l & Hres & _).
    exists l. split; [exact Hres|].
    assert (Hl : reply_json l
                 = reply_json [ example_project "00000000-0000-4000-8000-0000000000f2" "two" 9;
                                example_project example_project_id "one" 5 ]).
    { rewrite <- Hres. vm_compute. reflexivity. }
    injection Hl as ->. reflexivity.
  - apply Hnone. by left.
Defined.

(** The files of the example project in the order of their paths. *)
Lemma get_project_files_by_path_witness :
  ∃ l, (get_project_files (H := example_runtime) bytewise example_project_id
          example_database).1 = reply_json l
       ∧ ProjectFile.path <$> l = [ "src/a.ts"; "src/b.ts" ].
Proof.
  destruct (get_project_files_by_path (H := example_runtime) bytewise
              example_project_id example_database) as (_ & _ & Hlist).
  destruct (Hlist example_project_id eq_refl) as (l & Hres & _).
  exists l. split; [exact Hres|].
  assert (Hl : reply_json l
               = reply_json [ example_file "00000000-0000-4000-8000-0000000000a2" "src/a.ts";
                              example_file "00000000-0000-4000-8000-0000000000a1" "src/b.ts" ]).
  { rewrite <- Hres. vm_compute. reflexivity. }
  injection Hl as ->. reflexivity.
Defined.

(** ** POST /api/support-tickets *)

Section tickets.
Context `{Runtime}.

Lemma insert_supportTicket_Some env data db t db' :
  insert_supportTicket env data db = Some (t, db') →
  uuid_in (tkt_userId data) = Some (SupportTicket.userId t)
  ∧ SupportTicket.id t = db_uuid env
  ∧ SupportTicket.status t = default "open" (tkt_status data)
  ∧ SupportTicket.priority t = or_default (Some "medium") (tkt_priority data)
  ∧ SupportTicket.createdAt t = db_now env
  ∧ db' = {| core := core db;
             snippetCalls := snippetCalls db;
             projects := projects db;
             projectFiles := projectFiles db;
             supportTickets := supportTickets db ++ [t] |}.
Proof.
  unfold insert_supportTicket. intros Hins.
  destruct (uuid_in (tkt_userId data)) as [u|]; simpl in Hins; [|done].
  case_bool_decide as Hid; [done|].
  injection Hins as <- <-. by split_and!.
Qed.

(** The paths of the ticket handler. *)
Lemma post_support_ticket_cases env body db :
  match insertSupportTicketSchema body with
  | None => post_support_ticket env body db = (reply_thrown 400 ZodError, db)
  | Some data =>
      match insert_supportTicket env data db with
      | None => post_support_ticket env body db
                = (reply_thrown 400 QueryError, db)
      | Some (t, db') => post_support_ticket env body db = (reply_json t, db')
      end
  end.
Proof.
  unfold post_support_ticket, tx_try, mbind, Tx_bind, tx_orThrow, tx_statement.
  destruct (insertSupportTicketSchema body) as [data|]; simpl; [|done].
  by destruct (insert_supportTicket env data db) as [[t db']|].
Qed.

Lemma insertSupportTicketSchema_status o data :
  insertSupportTicketSchema (JObj o) = Some data →
  optional z_string (o !! "status") = Some (tkt_status data)
  ∧ nullable_optional z_string (o !! "priority") = Some (tkt_priority data).
Proof.
  unfold insertSupportTicketSchema. intros Hdata.
  destruct (required z_uuid _); simpl in Hdata; [|done].
  destruct (required z_string (o !! "type")); simpl in Hdata; [|done].
  destruct (required z_string (o !! "subject")); simpl in Hdata; [|done].
  destruct (required z_string (o !! "description")); simpl in Hdata; [|done].
  destruct (optional z_string _) as [status|]; simpl in Hdata; [|done].
  destruct (nullable_optional z_string _) as [priority|]; simpl in Hdata; [|done].
  destruct (nullable_optional z_json _); simpl in Hdata; [|done].
  destruct (required z_string (o !! "userEmail")); simpl in Hdata; [|done].
  destruct (required z_string (o !! "username")); simpl in Hdata; [|done].
  by injection Hdata as <-.
Qed.

(** X23. A ticket that is answered 200 is the row appended to
    [supportTickets], with the store's generated id and time, every other
    table untouched; its status is the string the payload gives as
    [status], so a caller can file a ticket in any status, and "open" when
    the payload gives none; its priority is "medium" when the payload gives
    none.  A payload without one of [userId], [type], [subject],
    [description], [userEmail], [username] is answered 400 and nothing is
    written.  An [id], [createdAt] or [updatedAt] in the payload, whatever
    its value, changes nothing. *)
Theorem post_support_ticket_stored env o db :
  (reply_status (post_support_ticket env (JObj o) db).1 = 200%nat →
   ∃ t, post_support_ticket env (JObj o) db
        = (reply_json t,
           {| core := core db;
              snippetCalls := snippetCalls db;
              projects := projects db;
              projectFiles := projectFiles db;
              supportTickets := supportTickets db ++ [t] |})
        ∧ SupportTicket.id t = db_uuid env
        ∧ SupportTicket.createdAt t = db_now env
        ∧ (o !! "status" = None → SupportTicket.status t = "open")
        ∧ (∀ s, o !! "status" = Some (JStr s) → SupportTicket.status t = s)
        ∧ (o !! "priority" = None → SupportTicket.priority t = Some "medium"))
  ∧ (∀ k, k ∈ required_ticket_keys → o !! k = None →
       post_support_ticket env (JObj o) db = (reply_thrown 400 ZodError, db))
  ∧ (∀ k v, k ∈ omitted_ticket_keys →
       post_support_ticket env (JObj (<[k:=v]> o)) db
       = post_support_ticket env (JObj o) db).
Proof.
  split_and!.
  - pose proof (post_support_ticket_cases env (JObj o) db) as Hcases.
    destruct (insertSupportTicketSchema (JObj o)) as [data|] eqn:Hdata;
      [|by rewrite Hcases].
    destruct (insert_supportTicket env data db) as [[t db']|] eqn:Hins;
      rewrite Hcases; [|done].
    intros _.
    apply insertSupportTicketSchema_status in Hdata as [Hstatus Hpriority].
    apply insert_supportTicket_Some in Hins as (_ & Hid & Hst & Hpr & Hat & ->).
    exists t. split_and!; try done.
    + intros Hnone. rewrite Hnone in Hstatus. simpl in Hstatus.
      rewrite Hst. by injection Hstatus as <-.
    + intros s Hs. rewrite Hs in Hstatus. simpl in Hstatus.
      rewrite Hst. by injection Hstatus as <-.
    + intros Hnone. rewrite Hnone in Hpriority. simpl in Hpriority.
      rewrite Hpr. by injection Hpriority as <-.
  - intros k Hk Hnone.
    pose proof (post_support_ticket_cases env (JObj o) db) as Hcases.
    assert (Hinvalid : insertSupportTicketSchema (JObj o) = None).
    { unfold required_ticket_keys in Hk. unfold insertSupportTicketSchema.
      repeat (apply elem_of_cons in Hk as [-> | Hk];
              [rewrite Hnone; simpl;
               repeat (match goal with
                       | |- context [mbind _ ?m] => destruct m; simpl; [|done]
                       end); done|]).
      by apply elem_of_nil in Hk. }
    by rewrite Hinvalid in Hcases.
  - intros k v Hk. unfold post_support_ticket, omitted_ticket_keys in *.
    f_equal. f_equal. unfold insertSupportTicketSchema.
    repeat (apply elem_of_cons in Hk as [-> | Hk];
            [by rewrite !lookup_insert_ne by done|]).
    by apply elem_of_nil in Hk.
Qed.
End tickets.

(** A ticket filed as "closed" is stored as "closed"; without a subject it
    is refused. *)
Lemma post_support_ticket_stored_witness :
  (∃ t, (post_support_ticket (H := example_runtime) (example_env 0) ticket_body
           example_database).1 = reply_json t
        ∧ SupportTicket.status t = "closed"
        ∧ SupportTicket.priority t = Some "medium")
  ∧ post_support_ticket (H := example_runtime) (example_env 0)
      (JObj {[ "userId" := JStr example_user ]}) example_database
    = (reply_thrown 400 ZodError, example_database).
Proof.
  split.
  - destruct (post_support_ticket_stored (H := example_runtime) (example_env 0)
                ({[ "userId" := JStr example_user; "type" := JStr "bug";
                    "subject" := JStr "s"; "description" := JStr "d";
                    "userEmail" := JStr "a@b.c"; "username" := JStr "ann";
                    "status" := JStr "closed" ]} : gmap string json)
                example_database) as (Hok & _).
    destruct Hok as (t & Hres & _ & _ & _ & Hstatus & Hpriority);
      [vm_compute; reflexivity|].
    exists t. split_and!.
    + unfold ticket_body. by rewrite Hres.
    + apply Hstatus. vm_compute. reflexivity.
    + apply Hpriority. vm_compute. reflexivity.
  - destruct (post_support_ticket_stored (H := example_runtime) (example_env 0)
                ({[ "userId" := JStr example_user ]} : gmap string json)
                example_database) as (_ & Hmissing & _).
    apply (Hmissing "subject"); [by_decide|vm_compute; reflexivity].
Defined.

(** ** POST /api/daily/room *)

Section room.
Context `{Runtime}.

Lemma insert_snippetCall_Some env snippetId roomName roomUrl startedBy isActive
    db c db' :
  insert_snippetCall env snippetId roomName roomUrl startedBy isActive db
  = Some (c, db') →
  (snippetId ≫= uuid_param) = Some (Some (SnippetCall.snippetId c))
  ∧ SnippetCall.snippetId c ∈ CodeSnippet.id <$> codeSnippets (core db)
  ∧ SnippetCall.id c = db_uuid env
  ∧ SnippetCall.roomName c = roomName
  ∧ SnippetCall.roomUrl c = roomUrl
  ∧ SnippetCall.isActive c = Some isActive
  ∧ SnippetCall.participantCount c = Some 0
  ∧ SnippetCall.endedAt c = None
  ∧ db' = {| core := core db;
             snippetCalls := snippetCalls db ++ [c];
             projects := projects db;
             projectFiles := projectFiles db;
             supportTickets := supportTickets db |}.
Proof.
  unfold insert_snippetCall. intros Hins.
  destruct (snippetId ≫= uuid_param) as [[u|]|]; simpl in Hins; [|done..].
  destruct (match startedBy with None => _ | Some v => _ end) as [by_|];
    simpl in Hins; [|done].
  case_bool_decide as Hid; [done|].
  case_bool_decide as Hfk; [|done].
  injection Hins as <- <-. by split_and!.
Qed.

(** The paths of the room handler. *)
Lemma post_daily_room_cases env body db :
  post_daily_room env body db = (reply_error 500 "Internal server error", db)
  ∨ ∃ o c,
      destructure body = Some o
      ∧ insert_snippetCall env (o !! "snippetId")
          ("snippet-" +:+ template (o !! "snippetId") +:+ "-" +:+ nanoid env 8)
          ("https://example.daily.co/" +:+ "snippet-"
             +:+ template (o !! "snippetId") +:+ "-" +:+ nanoid env 8)
          (o !! "startedBy") true db
        = Some (c, {| core := core db;
                      snippetCalls := snippetCalls db ++ [c];
                      projects := projects db;
                      projectFiles := projectFiles db;
                      supportTickets := supportTickets db |})
      ∧ post_daily_room env body db
        = (reply_json c,
           {| core := core db;
              snippetCalls := snippetCalls db ++ [c];
              projects := projects db;
              projectFiles := projectFiles db;
              supportTickets := supportTickets db |}).
Proof.
  unfold post_daily_room, tx_try, mbind, Tx_bind, tx_orThrow, tx_statement.
  destruct (destructure body) as [o|]; simpl; [|by left].
  destruct (insert_snippetCall _ _ _ _ _ _ _) as [[c db']|] eqn:Hins; simpl;
    [|by left].
  pose proof Hins as Hrow.
  apply insert_snippetCall_Some in Hrow as (_&_&_&_&_&_&_&_& ->).
  right. by exists o, c.
Qed.

(** X24. A room request writes one call row or nothing.  It is answered
    either 500, with the database unchanged, or 200 with a new row appended
    to [snippetCalls], every other table untouched: the row is active, has
    no participants and no end, belongs to a stored snippet, is named
    "snippet-", the body's snippet id, "-" and the [nanoid(8)] of the
    request, and its url is "https://example.daily.co/" followed by that
    name.  A body whose snippet id is absent, null, or the id of no stored
    snippet is answered 500. *)
Theorem post_daily_room_one_row env body db :
  (post_daily_room env body db = (reply_error 500 "Internal server error", db)
   ∨ ∃ o c,
       destructure body = Some o
       ∧ post_daily_room env body db
         = (reply_json c,
            {| core := core db;
               snippetCalls := snippetCalls db ++ [c];
               projects := projects db;
               projectFiles := projectFiles db;
               supportTickets := supportTickets db |})
       ∧ SnippetCall.snippetId c ∈ CodeSnippet.id <$> codeSnippets (core db)
       ∧ SnippetCall.roomName c
         = "snippet-" +:+ template (o !! "snippetId") +:+ "-" +:+ nanoid env 8
       ∧ SnippetCall.roomUrl c
         = "https://example.daily.co/" +:+ SnippetCall.roomName c
       ∧ SnippetCall.isActive c = Some true
       ∧ SnippetCall.participantCount c = Some 0
       ∧ SnippetCall.endedAt c = None)
  ∧ (∀ o, destructure body = Some o →
       o !! "snippetId" = None ∨ o !! "snippetId" = Some JNull
       ∨ (∃ s, o !! "snippetId" = Some (JStr s)
               ∧ ∀ u, uuid_in s = Some u →
                      u ∉ CodeSnippet.id <$> codeSnippets (core db)) →
       post_daily_room env body db
       = (reply_error 500 "Internal server error", db)).
Proof.
  destruct (post_daily_room_cases env body db)
    as [H500|(o & c & Hbody & Hins & Hres)].
  { split; [by left|done]. }
  apply insert_snippetCall_Some in Hins
    as (Hsid & Hfk & _ & Hname & Hurl & Hactive & Hcount & Hended & _).
  split.
  - right. exists o, c. split_and!; try done. by rewrite Hurl, Hname.
  - intros o' Hbody' Hbad. assert (o' = o) as -> by congruence. exfalso.
    destruct Hbad as [Hbad|[Hbad|(s & Hbad & Hunknown)]];
      rewrite Hbad in Hsid; simpl in Hsid; try done.
    unfold uuid_param in Hsid. simpl in Hsid.
    destruct (uuid_in s) as [u|] eqn:Hu; simpl in Hsid; [|done].
    injection Hsid as ->. by destruct (Hunknown _ eq_refl).
Qed.
End room.

(** A room for the stored snippet, and none for a body without snippet. *)
Lemma post_daily_room_one_row_witness :
  (∃ c, (post_daily_room (H := example_runtime) (example_env 0) room_body
           example_database).1 = reply_json c
        ∧ SnippetCall.roomUrl c
          = "https://example.daily.co/snippet-00000000-0000-4000-8000-000000000001-xxxxxxxx")
  ∧ post_daily_room (H := example_runtime) (example_env 0) (JObj ∅)
      example_database
    = (reply_error 500 "Internal server error", example_database).
Proof.
  split.
  - destruct (post_daily_room_one_row (H := example_runtime) (example_env 0)
                room_body example_database) as [[H500|Hok] _].
    { vm_compute in H500. discriminate. }
    destruct Hok as (o & c & Hbody & Hres & _ & Hname & Hurl & _).
    injection Hbody as <-.
    exists c. split; [by rewrite Hres|]. rewrite Hurl, Hname.
    vm_compute. reflexivity.
  - destruct (post_daily_room_one_row (H := example_runtime) (example_env 0)
                (JObj ∅) example_database) as [_ Hbad].
    apply (Hbad ∅); [reflexivity|]. by left.
Defined.

(** ** Stub integrations that never read the code *)

Section stubs.
Context `{Runtime}.

(** X25. The execution and assistance stubs never look at the code: for an
    object body, a [code] of any value, or none, gives the same answer.
    The answer is 200 and the store is unchanged; the execution result
    reports no error and 42 as execution time, and the assistance explains
    with the prompt appended to a fixed text. *)
Theorem stubs_ignore_code o v st :
  post_execute (JObj (<["code" := v]> o)) st = post_execute (JObj (delete "code" o)) st
  ∧ post_assist (JObj (<["code" := v]> o)) st = post_assist (JObj (delete "code" o)) st
  ∧ (∃ out, post_execute (JObj o) st = (json_ (BObject out), st)
            ∧ out !! "error" = Some JNull
            ∧ out !! "executionTime" = Some (JNum 42))
  ∧ (∃ out, post_assist (JObj o) st = (json_ (BObject out), st)
            ∧ out !! "explanation"
              = Some (JStr ("Analysis of the code and suggestions based on: "
                              +:+ template (o !! "prompt")))).
Proof.
  unfold post_execute, post_assist, try_catch, mbind, Tx_bind, orThrow. simpl.
  rewrite !(lookup_insert_ne _ "code"), !(lookup_delete_ne _ "code") by done.
  split_and!; try done.
  - eexists. split; [reflexivity|].
    rewrite !object_cons_Some, object_nil. by split.
  - eexists. split; [reflexivity|].
    by rewrite !object_cons_Some, object_nil.
Qed.
End stubs.

(** ** A submission and the stats endpoint *)

Lemma Forall2_filter_update {A} (p : A → bool) (f : A → option A)
    (rows rows' : list A) :
  (∀ r r', f r = Some r' → p r' = p r) →
  Forall2 (λ r r', if p r then f r = Some r' else r' = r) rows rows' →
  Forall2 (λ r r', f r = Some r')
          (filter (λ r, p r = true) rows) (filter (λ r, p r = true) rows').
Proof.
  intros Hkeep Hrows.
  induction Hrows as [|r r' rows rows' Hr _ IH]; [constructor|].
  destruct (p r) eqn:Hp.
  - rewrite !filter_cons_True by (by rewrite ?(Hkeep r r')).
    by constructor.
  - subst r'. by rewrite !filter_cons_False by (by rewrite Hp).
Qed.

Section submit_then_stats.
Context `{Runtime}.

(** X26. After a submission of a known user that is answered 200, the
    stats endpoint, asked for that user, answers 200 with a stored row of
    the user and not the zero object: a row with 100 points when the user
    had none, and otherwise a row with 100 points more than a row the user
    had. *)
Theorem post_submit_then_stats env challengeId body st data userId u :
  insertChallengeSubmissionSchema (submission_payload challengeId body)
  = Some data →
  known_user data = Some userId →
  uuid_in userId = Some u →
  status (post_submit env challengeId body st).1 = 200%nat →
  ∃ r, get_user_stats userId (post_submit env challengeId body st).2
       = (json_ (BStats r), (post_submit env challengeId body st).2)
       ∧ UserPracticeStats.userId r = u
       ∧ (((u ∉ UserPracticeStats.userId <$> userPracticeStats st)
           ∧ UserPracticeStats.totalPoints r = 100)
          ∨ ∃ r0, r0 ∈ userPracticeStats st
                  ∧ UserPracticeStats.userId r0 = u
                  ∧ UserPracticeStats.totalPoints r
                    = UserPracticeStats.totalPoints r0 + 100).
Proof.
  intros Hdata Hknown Hu Hok.
  destruct (post_submit_known env challengeId body st data userId)
    as (st1 & Hst1 & Hup); [done..|].
  apply upsert_userPracticeStats_spec in Hup as (u' & Hu' & Hup).
  assert (u' = u) as -> by congruence. rewrite Hst1 in Hup.
  unfold get_user_stats, try_catch, mbind, Handler_bind, statement.
  rewrite Hu. simpl.
  case_bool_decide as Hrow.
  - apply (Forall2_filter_update
             (λ r, eq_text (UserPracticeStats.userId r) u)) in Hup.
    2: { intros r r' Hr.
         apply stats_conflict_set_spec in Hr as ((Hid & _) & _).
         by rewrite Hid. }
    apply list_elem_of_fmap in Hrow as (r0 & Hr0u & Hr0).
    assert (Hr0sel : r0 ∈ filter
                       (λ r, eq_text (UserPracticeStats.userId r) u = true)
                       (userPracticeStats st)).
    { apply list_elem_of_filter. split; [by apply eq_text_true|done]. }
    destruct (filter _ (userPracticeStats st)) as [|r1 sel] eqn:Hsel;
      [by apply elem_of_nil in Hr0sel|].
    apply Forall2_cons_inv_l in Hup as (r & sel' & Hr & _ & ->).
    assert (Hr1 : r1 ∈ filter
                    (λ r, eq_text (UserPracticeStats.userId r) u = true)
                    (userPracticeStats st)) by (rewrite Hsel; left).
    apply list_elem_of_filter in Hr1 as [Hr1u%eq_text_true Hr1].
    apply stats_conflict_set_spec in Hr as ((Hid & _) & _ & Hpoints & _).
    exists r. simpl. split_and!; [done|congruence|].
    right. by exists r1.
  - rewrite Hup, filter_app_fresh.
    + eexists. split; [reflexivity|]. split; [done|]. by left.
    + apply Forall_forall. intros r Hr Heq%eq_text_true. apply Hrow.
      rewrite <- Heq. by apply list_elem_of_fmap_2.
    + by apply eq_text_true.
Qed.
End submit_then_stats.

(** After the first submission of [example_user] to [fresh_store] the stats
    endpoint answers the seeded row. *)
Lemma post_submit_then_stats_witness :
  ∃ r, (get_user_stats (H := example_runtime) example_user
          after_first_submission).1 = json_ (BStats r)
       ∧ UserPracticeStats.userId r = example_user.
Proof.
  destruct (post_submit_then_stats (H := example_runtime) (example_env 0)
              example_challenge_id (submit_body example_user) fresh_store
              (submit_data example_user) example_user example_user)
    as (r & Hres & Hid & _).
  - vm_compute. reflexivity.
  - reflexivity.
  - reflexivity.
  - reflexivity.
  - exists r. split; [|exact Hid].
    unfold after_first_submission. by rewrite Hres.
Defined.

(** ** Path ids that are no uuid *)

Section malformed_ids.
Context `{Runtime}.

(** X27. A path id that the store cannot read as a uuid is an error of the
    query, not a missing row: the stats endpoint answers 500 instead of the
    zero object, the message list answers 500 instead of an empty list, and
    neither writes. *)
Theorem lookup_malformed_id id st :
  uuid_in id = None →
  get_user_stats id st = (status_json 500 (BError "Internal server error"), st)
  ∧ get_messages id st = (status_json 500 (BError "Internal server error"), st).
Proof.
  intros Hbad.
  unfold get_user_stats, get_messages, try_catch, mbind, Handler_bind, statement.
  by rewrite Hbad.
Qed.
End malformed_ids.

Lemma lookup_malformed_id_witness :
  get_user_stats (H := example_runtime) "abc" empty_store
  = (status_json 500 (BError "Internal server error"), empty_store)
  ∧ get_messages (H := example_runtime) "abc" empty_store
    = (status_json 500 (BError "Internal server error"), empty_store).
Proof.
  apply (lookup_malformed_id (H := example_runtime)). reflexivity.
Defined.
